(** * An in-memory task tracker: the Task entity and the TodoService registry

    Shallow embedding of [src/models/task.py], [src/services/exceptions.py]
    and [src/services/todo_service.py].

    Python objects are mutable and shared by reference, so Task objects and
    list objects live in a store ([gmap loc obj]); the service holds the
    location of its [_tasks] list and its [_next_id] counter.  Operations are
    written in a small state-and-exception monad: a raised exception keeps
    the store as it is at the point of the raise, as in Python.

    The registry operations of the specification are the methods
    [add_task] (add), [get_all_tasks] (list_all), [get_task_by_id] (get),
    [update_task] (update), [update_task_status] (set_completed),
    [delete_task] (delete) and the property [next_id]. *)

From Stdlib Require Import ZArith Ascii String List Lia.
From stdpp Require Import base option list gmap strings pretty sorting.

Local Open Scope string_scope.
Local Open Scope list_scope.
Local Open Scope Z_scope.

(** ** Python values

    The registry "consumes plain strings/booleans/integers as arguments";
    these, with [None], are the values a caller can pass.  Strings are
    sequences of characters with code points below 256. *)

Inductive value : Type :=
| VNone
| VBool (b : bool)
| VInt (n : Z)
| VStr (s : string).

(** [isinstance(v, int)]: [bool] is a subclass of [int]. *)
Definition isinstance_int (v : value) : bool :=
  match v with VBool _ | VInt _ => true | _ => false end.

Definition isinstance_str (v : value) : bool :=
  match v with VStr _ => true | _ => false end.

Definition isinstance_bool (v : value) : bool :=
  match v with VBool _ => true | _ => false end.

(** Truth value of an object, as tested by [not v]. *)
Definition truthy (v : value) : bool :=
  match v with
  | VNone => false
  | VBool b => b
  | VInt n => negb (n =? 0)
  | VStr s => negb (String.eqb s "")
  end.

(** The integer a [bool] or [int] stands for in comparisons. *)
Definition int_of (v : value) : option Z :=
  match v with
  | VBool b => Some (Z.b2z b)
  | VInt n => Some n
  | _ => None
  end.

(** [a == b] on values: numbers compare numerically ([True == 1]). *)
Definition py_eq (a b : value) : bool :=
  match a, b with
  | VNone, VNone => true
  | VStr s, VStr s' => String.eqb s s'
  | (VBool _ | VInt _), (VBool _ | VInt _) =>
      match int_of a, int_of b with
      | Some x, Some y => x =? y
      | _, _ => false
      end
  | _, _ => false
  end.

(** ** [str.strip] and [len] *)

(** [str.isspace] on one character (code points below 256). *)
Definition isspace (c : ascii) : bool :=
  let n := N_of_ascii c in
  ((9 <=? n) && (n <=? 13) || (28 <=? n) && (n <=? 32)
   || (n =? 133) || (n =? 160))%N.

Fixpoint lstrip (s : string) : string :=
  match s with
  | EmptyString => EmptyString
  | String c s' => if isspace c then lstrip s' else s
  end.

Fixpoint rstrip (s : string) : string :=
  match s with
  | EmptyString => EmptyString
  | String c s' =>
      match rstrip s' with
      | EmptyString => if isspace c then EmptyString else String c EmptyString
      | r => String c r
      end
  end.

Definition strip (s : string) : string := rstrip (lstrip s).

Definition len (s : string) : Z := Z.of_nat (String.length s).

(** [c * n] for a one-character string, used to write long inputs. *)
Fixpoint str_repeat (c : ascii) (n : nat) : string :=
  match n with
  | O => EmptyString
  | S n' => String c (str_repeat c n')
  end.

(** ** Exceptions ([src/services/exceptions.py] and the built-in ones) *)

Inductive exn : Type :=
| ValueError (msg : string)
| AttributeError
| KeyError (key : string)
| TaskNotFoundError (task_id : value)
| InvalidTaskInputError (msg : string).

(** Outcome of a call: a returned value or a raised exception.  [Fault] is
    the model's own outcome for dereferencing a location that holds no object
    of the expected class; the registry invariant below rules it out. *)
Inductive result (A : Type) : Type :=
| Ok (a : A)
| Raise (e : exn)
| Fault.
Arguments Ok {A} a.
Arguments Raise {A} e.
Arguments Fault {A}.

Definition rbind {A B} (r : result A) (k : A -> result B) : result B :=
  match r with
  | Ok a => k a
  | Raise e => Raise e
  | Fault => Fault
  end.

(** ** The Task entity ([src/models/task.py]) *)

Module Task.

Record t : Type := mk {
  _id : value;
  _title : value;
  _description : value;
  _completed : value
}.

Definition _validate_task_id (task_id : value) : result unit :=
  if negb (isinstance_int task_id)
     || match int_of task_id with Some n => n <=? 0 | None => false end
  then Raise (ValueError "Task ID must be a positive integer")
  else Ok tt.

Definition _validate_title (title : value) : result unit :=
  if negb (truthy title) || negb (isinstance_str title)
  then Raise (ValueError "Title must be a non-empty string")
  else match title with
       | VStr s =>
           if String.eqb (strip s) ""
           then Raise (ValueError "Title cannot be whitespace-only")
           else if 200 <? len s
           then Raise (ValueError "Title must not exceed 200 characters")
           else Ok tt
       | _ => Raise AttributeError  (* not reached: [title] is a [str] here *)
       end.

Definition _validate_description (description : value) : result unit :=
  match description with
  | VStr s =>
      if 1000 <? len s
      then Raise (ValueError "Description must not exceed 1000 characters")
      else Ok tt
  | _ => Raise (ValueError "Description must be a string")
  end.

Definition _validate_completed (completed : value) : result unit :=
  if negb (isinstance_bool completed)
  then Raise (ValueError "Completed status must be a boolean")
  else Ok tt.

(** [Task(task_id, title, description, completed)] *)
Definition __init__ (task_id title description completed : value) : result t :=
  rbind (_validate_task_id task_id) (fun _ =>
  rbind (_validate_title title) (fun _ =>
  rbind (_validate_description description) (fun _ =>
  rbind (_validate_completed completed) (fun _ =>
  Ok (mk task_id title description completed))))).

(** The property setters: validate, then assign. *)
Definition set_title (self : t) (v : value) : result t :=
  rbind (_validate_title v) (fun _ =>
  Ok (mk (_id self) v (_description self) (_completed self))).

Definition set_description (self : t) (v : value) : result t :=
  rbind (_validate_description v) (fun _ =>
  Ok (mk (_id self) (_title self) v (_completed self))).

Definition set_completed (self : t) (v : value) : result t :=
  rbind (_validate_completed v) (fun _ =>
  Ok (mk (_id self) (_title self) (_description self) v)).

(** [to_dict] / [from_dict]: the dict is a finite map from key to value. *)
Definition to_dict (self : t) : gmap string value :=
  <["id" := _id self]>
    (<["title" := _title self]>
       (<["description" := _description self]>
          (<["completed" := _completed self]> ∅))).

(** [data[k]]: [KeyError] when the key is missing. *)
Definition getitem (data : gmap string value) (k : string) : result value :=
  match data !! k with
  | Some v => Ok v
  | None => Raise (KeyError k)
  end.

(** [data.get(k, d)] *)
Definition dict_get (data : gmap string value) (k : string) (d : value) : value :=
  default d (data !! k).

Definition from_dict (data : gmap string value) : result t :=
  rbind (getitem data "id") (fun task_id =>
  rbind (getitem data "title") (fun title =>
  __init__ task_id title
           (dict_get data "description" (VStr ""))
           (dict_get data "completed" (VBool false)))).

End Task.

(** ** The object store and the monad of service code *)

Definition loc : Type := positive.

Inductive obj : Type :=
| OTask (t : Task.t)
| OList (items : list loc).

(** The attributes of the one [TodoService] instance. *)
Record service : Type := mkService {
  _tasks : loc;
  _next_id : Z
}.

Record state : Type := mkState {
  heap : gmap loc obj;
  self : service
}.

Definition M (A : Type) : Type := state -> result A * state.

Definition ret {A} (a : A) : M A := fun s => (Ok a, s).

Definition bind {A B} (c : M A) (k : A -> M B) : M B :=
  fun s =>
    match c s with
    | (Ok a, s') => k a s'
    | (Raise e, s') => (Raise e, s')
    | (Fault, s') => (Fault, s')
    end.

Definition raise {A} (e : exn) : M A := fun s => (Raise e, s).

Definition lift {A} (r : result A) : M A := fun s => (r, s).

(** [try: c except ...: h e]; [h] says which exceptions the clause catches. *)
Definition try_except {A} (c : M A) (h : exn -> option (M A)) : M A :=
  fun s =>
    match c s with
    | (Raise e, s') =>
        match h e with
        | Some k => k s'
        | None => (Raise e, s')
        end
    | r => r
    end.

Notation "'do' x <- c ; k" := (bind c (fun x => k))
  (at level 10, x name, c at level 100, k at level 200).
Notation "'run' c ; k" := (bind c (fun _ => k))
  (at level 10, c at level 100, k at level 200).

Definition get_list (l : loc) : M (list loc) :=
  fun s =>
    match heap s !! l with
    | Some (OList items) => (Ok items, s)
    | _ => (Fault, s)
    end.

Definition get_task (l : loc) : M Task.t :=
  fun s =>
    match heap s !! l with
    | Some (OTask t) => (Ok t, s)
    | _ => (Fault, s)
    end.

Definition put (l : loc) (o : obj) : M unit :=
  fun s => (Ok tt, mkState (<[l := o]> (heap s)) (self s)).

Definition alloc (o : obj) : M loc :=
  fun s =>
    let l := fresh (dom (heap s)) in
    (Ok l, mkState (<[l := o]> (heap s)) (self s)).

Definition get_self : M service := fun s => (Ok (self s), s).

Definition set_next_id (n : Z) : M unit :=
  fun s => (Ok tt, mkState (heap s) (mkService (_tasks (self s)) n)).

(** *** Methods of Python lists *)

Definition list_append (l x : loc) : M unit :=
  do items <- get_list l;
  put l (OList (items ++ [x])).

(** Drop the first occurrence of [x] (Task objects compare by identity). *)
Fixpoint remove_first (x : loc) (items : list loc) : option (list loc) :=
  match items with
  | [] => None
  | y :: items' =>
      if decide (y = x) then Some items'
      else match remove_first x items' with
           | Some r => Some (y :: r)
           | None => None
           end
  end.

Definition list_remove (l x : loc) : M unit :=
  do items <- get_list l;
  match remove_first x items with
  | Some items' => put l (OList items')
  | None => raise (ValueError "list.remove(x): x not in list")
  end.

Definition list_copy (l : loc) : M loc :=
  do items <- get_list l;
  alloc (OList items).

Definition list_reverse (l : loc) : M unit :=
  do items <- get_list l;
  put l (OList (rev items)).

(** *** Attribute assignment on a Task object, through its setters *)

Definition setattr_title (task : loc) (v : value) : M unit :=
  do t <- get_task task;
  do t' <- lift (Task.set_title t v);
  put task (OTask t').

Definition setattr_description (task : loc) (v : value) : M unit :=
  do t <- get_task task;
  do t' <- lift (Task.set_description t v);
  put task (OTask t').

Definition setattr_completed (task : loc) (v : value) : M unit :=
  do t <- get_task task;
  do t' <- lift (Task.set_completed t v);
  put task (OTask t').

(** [title.strip()]: only strings have the method. *)
Definition call_strip (v : value) : result string :=
  match v with
  | VStr s => Ok (strip s)
  | _ => Raise AttributeError
  end.

Definition is_not_None (v : value) : bool :=
  match v with VNone => false | _ => true end.

(** ** The registry ([src/services/todo_service.py]) *)

Module TodoService.

(** [TodoService()] in a store [h]: a new empty list, counter at 1. *)
Definition __init__ (h : gmap loc obj) : state :=
  let l := fresh (dom h) in
  mkState (<[l := OList []]> h) (mkService l 1).

(** The loop of [get_task_by_id] over the items of [self._tasks]. *)
Fixpoint find_loop (task_id : value) (items : list loc) : M (option loc) :=
  match items with
  | [] => ret None
  | task :: items' =>
      do t <- get_task task;
      if py_eq (Task._id t) task_id then ret (Some task)
      else find_loop task_id items'
  end.

Definition get_task_by_id (task_id : value) : M (option loc) :=
  do me <- get_self;
  do items <- get_list (_tasks me);
  find_loop task_id items.

Definition _validate_task_exists (task_id : value) : M loc :=
  do task <- get_task_by_id task_id;
  match task with
  | None => raise (TaskNotFoundError task_id)
  | Some l => ret l
  end.

Definition add_task (title description : value) : M loc :=
  do blank <- (if negb (truthy title) then ret true
               else do stripped <- lift (call_strip title);
                    ret (String.eqb stripped ""));
  if blank
  then raise (InvalidTaskInputError "Title cannot be empty or whitespace-only")
  else
    do me <- get_self;
    do task <- try_except
                 (do t <- lift (Task.__init__ (VInt (_next_id me)) title
                                  description (VBool false));
                  alloc (OTask t))
                 (fun e =>
                    match e with
                    | ValueError msg =>
                        Some (raise (InvalidTaskInputError
                                       ("Invalid task input: " +:+ msg)))
                    | _ => None
                    end);
    run list_append (_tasks me) task;
    run set_next_id (_next_id me + 1);
    ret task.

Definition get_all_tasks : M loc :=
  do me <- get_self;
  list_copy (_tasks me).

(** [try: task = self._validate_task_exists(task_id)
     except TaskNotFoundError: return False], shared by three methods:
    [None] stands for the early [return False]. *)
Definition existing (task_id : value) : M (option loc) :=
  try_except
    (do task <- _validate_task_exists task_id; ret (Some task))
    (fun e =>
       match e with
       | TaskNotFoundError _ => Some (ret None)
       | _ => None
       end).

Definition update_task (task_id title description : value) : M bool :=
  do found <- existing task_id;
  match found with
  | None => ret false
  | Some task =>
      run (if is_not_None title
           then try_except (setattr_title task title)
                  (fun e =>
                     match e with
                     | ValueError msg =>
                         Some (raise (InvalidTaskInputError
                                        ("Invalid title: " +:+ msg)))
                     | _ => None
                     end)
           else ret tt);
      run (if is_not_None description
           then try_except (setattr_description task description)
                  (fun e =>
                     match e with
                     | ValueError msg =>
                         Some (raise (InvalidTaskInputError
                                        ("Invalid description: " +:+ msg)))
                     | _ => None
                     end)
           else ret tt);
      ret true
  end.

(** The second loop of [update_task_status]. *)
Fixpoint status_loop (task_id completed : value) (items : list loc) : M bool :=
  match items with
  | [] => ret false
  | task :: items' =>
      do t <- get_task task;
      if py_eq (Task._id t) task_id
      then run setattr_completed task completed; ret true
      else status_loop task_id completed items'
  end.

Definition update_task_status (task_id completed : value) : M bool :=
  do found <- existing task_id;
  match found with
  | None => ret false
  | Some _ =>
      if negb (isinstance_bool completed)
      then raise (InvalidTaskInputError "Completion status must be a boolean")
      else
        do me <- get_self;
        do items <- get_list (_tasks me);
        status_loop task_id completed items
  end.

Definition delete_task (task_id : value) : M bool :=
  do found <- existing task_id;
  match found with
  | None => ret false
  | Some task =>
      do me <- get_self;
      run list_remove (_tasks me) task;
      ret true
  end.

Definition next_id : M Z :=
  do me <- get_self;
  ret (_next_id me).

End TodoService.

Definition init_state : state := TodoService.__init__ ∅.

(** ** Validity of field values, in the words of the data model *)

Fixpoint all_space (s : string) : bool :=
  match s with
  | EmptyString => true
  | String c s' => isspace c && all_space s'
  end.

Definition title_ok (s : string) : bool :=
  negb (String.eqb s "") && negb (all_space s) && (len s <=? 200).

Definition description_ok (s : string) : bool := len s <=? 1000.

Definition valid_id (v : value) : bool :=
  match int_of v with Some n => 0 <? n | None => false end.

Definition valid_title (v : value) : bool :=
  match v with VStr s => title_ok s | _ => false end.

Definition valid_description (v : value) : bool :=
  match v with VStr s => description_ok s | _ => false end.

Definition valid_task (t : Task.t) : bool :=
  valid_id (Task._id t) && valid_title (Task._title t)
  && valid_description (Task._description t)
  && isinstance_bool (Task._completed t).

(** ** Reading a state *)

Definition task_at (h : gmap loc obj) (l : loc) : option Task.t :=
  match h !! l with
  | Some (OTask t) => Some t
  | _ => None
  end.

Definition list_at (h : gmap loc obj) (l : loc) : option (list loc) :=
  match h !! l with
  | Some (OList items) => Some items
  | _ => None
  end.

(** The items of [self._tasks]. *)
Definition items_of (s : state) : list loc :=
  default [] (list_at (heap s) (_tasks (self s))).

Definition id_at (h : gmap loc obj) (l : loc) : value :=
  match task_at h l with
  | Some t => Task._id t
  | None => VNone
  end.

(** The first item whose id equals [task_id], read off the store. *)
Fixpoint lookup_id (h : gmap loc obj) (task_id : value) (items : list loc)
  : option loc :=
  match items with
  | [] => None
  | l :: items' =>
      if py_eq (id_at h l) task_id then Some l else lookup_id h task_id items'
  end.

Definition find (s : state) (task_id : value) : option loc :=
  lookup_id (heap s) task_id (items_of s).

Definition set_obj (s : state) (l : loc) (o : obj) : state :=
  mkState (<[l := o]> (heap s)) (self s).

(** ** The registry invariant *)

(** A task the registry created: valid fields, and an integer id below the
    counter. *)
Definition registered (next : Z) (t : Task.t) : Prop :=
  valid_task t = true /\ exists i, Task._id t = VInt i /\ 0 < i < next.

Record wf (s : state) : Prop := mkWf {
  wf_list : is_Some (list_at (heap s) (_tasks (self s)));
  wf_items :
    Forall (fun l => exists t, task_at (heap s) l = Some t
                                /\ registered (_next_id (self s)) t)
           (items_of s);
  wf_ids : NoDup (map (id_at (heap s)) (items_of s));
  wf_valid : forall l t, task_at (heap s) l = Some t -> valid_task t = true;
  wf_next : 0 < _next_id (self s)
}.

(** ** Sequences of registry operations *)

Inductive op : Type :=
| Add (title description : value)
| ListAll
| Get (task_id : value)
| Update (task_id title description : value)
| SetCompleted (task_id completed : value)
| Delete (task_id : value)
| NextId.

Inductive answer : Type :=
| ATask (l : loc)
| AList (l : loc)
| AOpt (o : option loc)
| ABool (b : bool)
| AInt (n : Z).

Definition call (o : op) : M answer :=
  match o with
  | Add title description =>
      do l <- TodoService.add_task title description; ret (ATask l)
  | ListAll => do l <- TodoService.get_all_tasks; ret (AList l)
  | Get task_id => do r <- TodoService.get_task_by_id task_id; ret (AOpt r)
  | Update task_id title description =>
      do b <- TodoService.update_task task_id title description; ret (ABool b)
  | SetCompleted task_id completed =>
      do b <- TodoService.update_task_status task_id completed; ret (ABool b)
  | Delete task_id => do b <- TodoService.delete_task task_id; ret (ABool b)
  | NextId => do n <- TodoService.next_id; ret (AInt n)
  end.

(** The state after a sequence of calls; a caller that catches an exception
    goes on with the state the exception left. *)
Fixpoint exec (ops : list op) (s : state) : state :=
  match ops with
  | [] => s
  | o :: ops' => exec ops' (snd (call o s))
  end.

(** The ids of the tasks returned by the successful adds of a sequence of
    calls, in order. *)
Fixpoint assigned (ops : list op) (s : state) : list value :=
  match ops with
  | [] => []
  | o :: ops' =>
      let s' := snd (call o s) in
      match o, fst (call o s) with
      | Add _ _, Ok (ATask l) => id_at (heap s') l :: assigned ops' s'
      | _, _ => assigned ops' s'
      end
  end.

(** ** Expected outcomes *)

(** [r] is a raised [ValueError]. *)
Definition value_error {A} (r : result A) : Prop :=
  exists msg, r = Raise (ValueError msg).

(** A task with one field replaced. *)
Definition with_title (t : Task.t) (v : value) : Task.t :=
  Task.mk (Task._id t) v (Task._description t) (Task._completed t).
Definition with_description (t : Task.t) (v : value) : Task.t :=
  Task.mk (Task._id t) (Task._title t) v (Task._completed t).
Definition with_completed (t : Task.t) (v : value) : Task.t :=
  Task.mk (Task._id t) (Task._title t) (Task._description t) v.

(** The state after the title step of [update_task]. *)
Definition title_step (s : state) (l : loc) (t : Task.t) (v : value) : state :=
  if is_not_None v then set_obj s l (OTask (with_title t v)) else s.

Definition title_stepped (t : Task.t) (v : value) : Task.t :=
  if is_not_None v then with_title t v else t.

Definition new_task (s : state) (title description : value) : Task.t :=
  Task.mk (VInt (_next_id (self s))) title description (VBool false).

(** The state after a successful [add_task]. *)
Definition added (s : state) (title description : value) : state :=
  let l := fresh (dom (heap s)) in
  mkState
    (<[_tasks (self s) := OList (items_of s ++ [l])]>
       (<[l := OTask (new_task s title description)]> (heap s)))
    (mkService (_tasks (self s)) (_next_id (self s) + 1)).

(** The effect of one call on the counter: only a successful add moves it,
    by one, handing out the old counter as the id. *)
Definition counter_effect (o : op) (r : result answer) (s s' : state) : Prop :=
  match o, r with
  | Add _ _, Ok (ATask l) =>
      id_at (heap s') l = VInt (_next_id (self s))
      /\ _next_id (self s') = _next_id (self s) + 1
  | Add _ _, Ok _ => False
  | _, _ => _next_id (self s') = _next_id (self s)
  end.

(** ** Ids of the registry *)

(** The item [l] of the registry has id [task_id]. *)
Definition has_id (s : state) (l : loc) (task_id : value) : Prop :=
  l ∈ items_of s /\ py_eq (id_at (heap s) l) task_id = true.

(** No task of the registry has id [task_id]. *)
Definition no_task (s : state) (task_id : value) : Prop :=
  forall l, l ∈ items_of s -> py_eq (id_at (heap s) l) task_id = false.

(** The ids held by the registry, in list order. *)
Definition ids_of (s : state) : list value :=
  map (id_at (heap s)) (items_of s).

(** [task_id] is out of use: no task has it, and if it is a number it lies
    below the counter, so no later add hands it out. *)
Definition retired (s : state) (task_id : value) : Prop :=
  no_task s task_id
  /\ forall n, int_of task_id = Some n -> n < _next_id (self s).

(** The task [t] with the provided fields ([None]: not provided) replaced. *)
Definition updated (t : Task.t) (title description : value) : Task.t :=
  Task.mk (Task._id t)
    (if is_not_None title then title else Task._title t)
    (if is_not_None description then description else Task._description t)
    (Task._completed t).

(** ** What a caller can do to a list it was handed *)

Inductive list_mutation : Type :=
| Append (x : loc)
| Remove (x : loc)
| Reverse
| Assign (items : list loc).

Definition mutate (c : loc) (m : list_mutation) : M unit :=
  match m with
  | Append x => list_append c x
  | Remove x => list_remove c x
  | Reverse => list_reverse c
  | Assign items => run get_list c; put c (OList items)
  end.

(** A caller's sequence of mutations, going on after an exception. *)
Fixpoint mutates (c : loc) (ms : list list_mutation) (s : state) : state :=
  match ms with
  | [] => s
  | m :: ms' => mutates c ms' (snd (mutate c m s))
  end.

(** ** The scenario of the specification *)

Definition scenario : list op :=
  [Add (VStr "Buy milk") (VStr ""); Add (VStr "Clean") (VStr "");
   Delete (VInt 1); Add (VStr "Paint") (VStr "")].

Definition demo : state := exec scenario init_state.

(** A registry holding one task, and a description of 1001 characters. *)
Definition one_task : state :=
  exec [Add (VStr "Original Title") (VStr "Original Description")] init_state.

Definition long_text : value := VStr (str_repeat "A"%char 1001).

(** ** Input helpers of the command-line layer
    ([phase1/src/utils/validation.py]) *)

(** [str(v)] *)
Definition py_str (v : value) : string :=
  match v with
  | VNone => "None"
  | VBool true => "True"
  | VBool false => "False"
  | VInt n => pretty n
  | VStr s => s
  end.

Module Validation.

Definition validate_task_title (title : value) : bool :=
  if negb (truthy title) || negb (isinstance_str title) then false
  else match title with
       | VStr s =>
           if String.eqb (strip s) "" then false
           else if 200 <? len s then false
           else true
       | _ => false  (* not reached: [title] is a [str] here *)
       end.

Definition validate_task_description (description : value) : bool :=
  match description with
  | VStr s => if 1000 <? len s then false else true
  | _ => false
  end.

Definition validate_task_id (task_id : value) : bool :=
  if negb (isinstance_int task_id)
     || match int_of task_id with Some n => n <=? 0 | None => false end
  then false
  else true.

Definition validate_task_completed (completed : value) : bool :=
  if negb (isinstance_bool completed) then false else true.

Definition sanitize_input (input_str : value) : string :=
  match input_str with
  | VNone => ""
  | VStr s => strip s
  | _ => strip (py_str input_str)
  end.

Definition is_empty_or_whitespace_only (text : value) : bool :=
  if negb (truthy text) || negb (isinstance_str text) then true
  else match text with
       | VStr s => String.eqb (strip s) ""
       | _ => true  (* not reached: [text] is a [str] here *)
       end.

End Validation.

(** ** The add-task dialogue of the command-line layer
    ([phase1/src/cli/main.py], [TodoCLI.add_task]) *)

(** What the dialogue writes: a printed line, or the prompt of an [input]. *)
Inductive output : Type :=
| Printed (line : string)
| Prompted (prompt : string).

(** The terminal and the service the CLI object holds. *)
Record console : Type := mkConsole {
  service_state : state;
  stdin : list string;
  stdout : list output
}.

(** How a method of the CLI ends: it returns, or an [input] at the end of
    the input raises [EOFError], which the method does not catch. *)
Inductive ending : Type :=
| Returns
| EOFError.

Definition print (line : string) (c : console) : console :=
  mkConsole (service_state c) (stdin c) (stdout c ++ [Printed line]).

(** [input(prompt)]: the prompt is written, then a line is read. *)
Definition input (prompt : string) (c : console) : option string * console :=
  let c' := mkConsole (service_state c) (stdin c)
              (stdout c ++ [Prompted prompt]) in
  match stdin c with
  | [] => (None, c')
  | line :: rest =>
      (Some line, mkConsole (service_state c) rest (stdout c'))
  end.

Definition newline : string := String (ascii_of_nat 10) EmptyString.

Module TodoCLI.

Section Dialogue.

(** [str(e)] of an exception; what the built-in exceptions print is Python's
    own text, taken as given. *)
Variable exn_text : exn -> string.

Definition add_task (c : console) : ending * console :=
  let c := print (newline +:+ "--- Add New Task ---") c in
  match input "Enter task title: " c with
  | (None, c) => (EOFError, c)
  | (Some title_input, c) =>
      let title := Validation.sanitize_input (VStr title_input) in
      if Validation.is_empty_or_whitespace_only (VStr title)
      then (Returns,
            print "Error: Title cannot be empty or contain only whitespace." c)
      else
        match input "Enter task description (optional): " c with
        | (None, c) => (EOFError, c)
        | (Some description_input, c) =>
            let description :=
              Validation.sanitize_input (VStr description_input) in
            match TodoService.add_task (VStr title) (VStr description)
                    (service_state c) with
            | (Ok task, st) =>
                (Returns,
                 print ("Task added successfully! ID: "
                        +:+ py_str (id_at (heap st) task))
                   (mkConsole st (stdin c) (stdout c)))
            | (Raise (InvalidTaskInputError msg), st) =>
                (Returns,
                 print ("Error: " +:+ msg) (mkConsole st (stdin c) (stdout c)))
            | (Raise e, st) =>
                (Returns,
                 print ("Error: An unexpected error occurred: " +:+ exn_text e)
                   (mkConsole st (stdin c) (stdout c)))
            | (Fault, st) => (Returns, mkConsole st (stdin c) (stdout c))
            end
        end
  end.

End Dialogue.

End TodoCLI.

(** The keys of the dict of a Task. *)
Definition task_keys : list string :=
  ["id"; "title"; "description"; "completed"].

(** ** How calls change the registry's list *)

(** The item list after a call, against the one before: kept, extended at
    the end by a new item carrying the old counter as id, or with one item
    taken out. *)
Inductive list_change (s s' : state) : Prop :=
| kept :
    items_of s' = items_of s ->
    _next_id (self s') = _next_id (self s) ->
    list_change s s'
| appended (l : loc) :
    items_of s' = items_of s ++ [l] ->
    id_at (heap s') l = VInt (_next_id (self s)) ->
    _next_id (self s') = _next_id (self s) + 1 ->
    list_change s s'
| removed (pre : list loc) (l : loc) (post : list loc) :
    items_of s = pre ++ l :: post ->
    items_of s' = pre ++ post ->
    _next_id (self s') = _next_id (self s) ->
    list_change s s'.

(** [s'] is [s], or [s] with one Task object replaced by one of the same
    id. *)
Definition edited (s s' : state) : Prop :=
  s' = s
  \/ exists l t t',
       task_at (heap s) l = Some t /\ Task._id t' = Task._id t
       /\ s' = set_obj s l (OTask t').


(** The ids of the registry are integers, strictly increasing along the
    list, each positive and below the counter. *)
Definition increasing_ids (s : state) : Prop :=
  exists ids : list Z,
    ids_of s = map VInt ids
    /\ StronglySorted Z.lt ids
    /\ Forall (fun i => 0 < i < _next_id (self s)) ids.

(** The number of deletes of a sequence of calls that returned [True]. *)
Fixpoint removals (ops : list op) (s : state) : nat :=
  match ops with
  | [] => O
  | o :: ops' =>
      let s' := snd (call o s) in
      match o, fst (call o s) with
      | Delete _, Ok (ABool true) => S (removals ops' s')
      | _, _ => removals ops' s'
      end
  end.

(** * Properties *)

(** ** Strings *)

Section Strings.

Lemma lstrip_all_space s : all_space (lstrip s) = all_space s.
Proof.
  induction s as [|c s IH]; simpl; [done|].
  destruct (isspace c) eqn:Hc; simpl; [done|]. by rewrite Hc.
Qed.

Lemma rstrip_empty s : rstrip s = "" <-> all_space s = true.
Proof.
  induction s as [|c s IH]; simpl; [done|].
  destruct (rstrip s) eqn:Hr.
  - destruct (isspace c); simpl.
    + split; [intros _; by apply IH | done].
    + split; discriminate.
  - split; [discriminate|].
    intros [_ H]%andb_prop. apply IH in H. discriminate.
Qed.

Lemma strip_empty s : strip s = "" <-> all_space s = true.
Proof. unfold strip. by rewrite rstrip_empty, lstrip_all_space. Qed.

Lemma strip_eqb s : String.eqb (strip s) "" = all_space s.
Proof.
  destruct (all_space s) eqn:H.
  - apply String.eqb_eq. by apply strip_empty.
  - apply String.eqb_neq. intros E%strip_empty. congruence.
Qed.

Lemma len_str_repeat c n : len (str_repeat c n) = Z.of_nat n.
Proof. unfold len. f_equal. induction n; simpl; congruence. Qed.

End Strings.

(** ** The Task entity *)

Section TaskFacts.

Lemma validate_id_cases v :
  if valid_id v then Task._validate_task_id v = Ok tt
  else value_error (Task._validate_task_id v).
Proof.
  unfold valid_id, Task._validate_task_id, value_error.
  destruct v as [|b|n|s]; simpl; eauto.
  - destruct b; simpl; eauto.
  - destruct (Z.ltb_spec 0 n), (Z.leb_spec n 0); simpl; eauto; lia.
Qed.

Lemma validate_title_cases v :
  if valid_title v then Task._validate_title v = Ok tt
  else value_error (Task._validate_title v).
Proof.
  unfold valid_title, Task._validate_title, value_error, title_ok.
  destruct v as [|b|n|s]; simpl; eauto.
  - destruct b; simpl; eauto.
  - destruct (n =? 0); simpl; eauto.
  - rewrite strip_eqb.
    destruct (String.eqb s ""); simpl; eauto.
    destruct (all_space s); simpl; eauto.
    destruct (Z.leb_spec (len s) 200), (Z.ltb_spec 200 (len s)); eauto; lia.
Qed.

Lemma validate_description_cases v :
  if valid_description v then Task._validate_description v = Ok tt
  else value_error (Task._validate_description v).
Proof.
  unfold valid_description, Task._validate_description, value_error,
    description_ok.
  destruct v as [|b|n|s]; simpl; eauto.
  destruct (Z.leb_spec (len s) 1000), (Z.ltb_spec 1000 (len s)); eauto; lia.
Qed.

Lemma validate_completed_cases v :
  if isinstance_bool v then Task._validate_completed v = Ok tt
  else value_error (Task._validate_completed v).
Proof.
  unfold Task._validate_completed, value_error.
  destruct (isinstance_bool v); simpl; eauto.
Qed.

(** Construction succeeds exactly on valid fields, and stores them as given;
    otherwise it raises [ValueError]. *)
Lemma init_cases a b c d :
  if valid_task (Task.mk a b c d)
  then Task.__init__ a b c d = Ok (Task.mk a b c d)
  else value_error (Task.__init__ a b c d).
Proof.
  unfold valid_task, Task.__init__; simpl.
  pose proof (validate_id_cases a) as Ha.
  pose proof (validate_title_cases b) as Hb.
  pose proof (validate_description_cases c) as Hc.
  pose proof (validate_completed_cases d) as Hd.
  destruct (valid_id a); simpl; [rewrite Ha|by destruct Ha as [? ->]; eexists].
  destruct (valid_title b); simpl;
    [rewrite Hb|by destruct Hb as [? ->]; eexists].
  destruct (valid_description c); simpl;
    [rewrite Hc|by destruct Hc as [? ->]; eexists].
  destruct (isinstance_bool d); simpl;
    [by rewrite Hd|by destruct Hd as [? ->]; eexists].
Qed.

Lemma init_ok a b c d t :
  Task.__init__ a b c d = Ok t -> t = Task.mk a b c d /\ valid_task t = true.
Proof.
  intros H. pose proof (init_cases a b c d) as Hc.
  destruct (valid_task (Task.mk a b c d)) eqn:Hv.
  - rewrite Hc in H. by inversion H; subst.
  - destruct Hc as [? Hc]. congruence.
Qed.

Lemma valid_task_fields a b c d :
  valid_task (Task.mk a b c d) = true <->
  valid_id a = true /\ valid_title b = true /\ valid_description c = true
  /\ isinstance_bool d = true.
Proof. unfold valid_task; simpl. rewrite !andb_true_iff. tauto. Qed.

Lemma set_title_ok t v :
  valid_title v = true ->
  Task.set_title t v =
    Ok (Task.mk (Task._id t) v (Task._description t) (Task._completed t)).
Proof.
  intros H. unfold Task.set_title.
  pose proof (validate_title_cases v) as Hc. rewrite H in Hc. by rewrite Hc.
Qed.

Lemma set_title_bad t v :
  valid_title v = false -> value_error (Task.set_title t v).
Proof.
  intros H. unfold Task.set_title.
  pose proof (validate_title_cases v) as Hc. rewrite H in Hc.
  destruct Hc as [m ->]. by exists m.
Qed.

Lemma set_description_ok t v :
  valid_description v = true ->
  Task.set_description t v =
    Ok (Task.mk (Task._id t) (Task._title t) v (Task._completed t)).
Proof.
  intros H. unfold Task.set_description.
  pose proof (validate_description_cases v) as Hc. rewrite H in Hc.
  by rewrite Hc.
Qed.

Lemma set_description_bad t v :
  valid_description v = false -> value_error (Task.set_description t v).
Proof.
  intros H. unfold Task.set_description.
  pose proof (validate_description_cases v) as Hc. rewrite H in Hc.
  destruct Hc as [m ->]. by exists m.
Qed.

Lemma set_completed_ok t v :
  isinstance_bool v = true ->
  Task.set_completed t v =
    Ok (Task.mk (Task._id t) (Task._title t) (Task._description t) v).
Proof.
  intros H. unfold Task.set_completed.
  pose proof (validate_completed_cases v) as Hc. rewrite H in Hc.
  by rewrite Hc.
Qed.

Lemma set_completed_bad t v :
  isinstance_bool v = false -> value_error (Task.set_completed t v).
Proof.
  intros H. unfold Task.set_completed.
  pose proof (validate_completed_cases v) as Hc. rewrite H in Hc.
  destruct Hc as [m ->]. by exists m.
Qed.

End TaskFacts.

(** ** The store *)

Section StoreFacts.

Implicit Types (h : gmap loc obj) (s : state) (l : loc) (t : Task.t).

Lemma task_at_insert_task h l l' t :
  task_at (<[l := OTask t]> h) l' =
    if decide (l = l') then Some t else task_at h l'.
Proof.
  unfold task_at. rewrite lookup_insert. by destruct (decide (l = l')).
Qed.

Lemma task_at_insert_list h l l' items :
  task_at (<[l := OList items]> h) l' =
    if decide (l = l') then None else task_at h l'.
Proof.
  unfold task_at. rewrite lookup_insert. by destruct (decide (l = l')).
Qed.

Lemma list_at_insert_task h l l' t :
  list_at (<[l := OTask t]> h) l' =
    if decide (l = l') then None else list_at h l'.
Proof.
  unfold list_at. rewrite lookup_insert. by destruct (decide (l = l')).
Qed.

Lemma list_at_insert_list h l l' items :
  list_at (<[l := OList items]> h) l' =
    if decide (l = l') then Some items else list_at h l'.
Proof.
  unfold list_at. rewrite lookup_insert. by destruct (decide (l = l')).
Qed.

Lemma task_not_list h l t : task_at h l = Some t -> list_at h l = None.
Proof. unfold task_at, list_at. by destruct (h !! l) as [[]|]. Qed.

Lemma fresh_task_at h : task_at h (fresh (dom h)) = None.
Proof.
  unfold task_at.
  assert (h !! fresh (dom h) = None) as ->; [|done].
  apply not_elem_of_dom, is_fresh.
Qed.

Lemma fresh_list_at h : list_at h (fresh (dom h)) = None.
Proof.
  unfold list_at.
  assert (h !! fresh (dom h) = None) as ->; [|done].
  apply not_elem_of_dom, is_fresh.
Qed.

Lemma get_task_at s l t : task_at (heap s) l = Some t -> get_task l s = (Ok t, s).
Proof.
  unfold task_at, get_task. destruct (heap s !! l) as [[]|]; congruence.
Qed.

Lemma get_list_at s l items :
  list_at (heap s) l = Some items -> get_list l s = (Ok items, s).
Proof.
  unfold list_at, get_list. destruct (heap s !! l) as [[]|]; congruence.
Qed.

Lemma items_of_list s items :
  list_at (heap s) (_tasks (self s)) = Some items -> items_of s = items.
Proof. unfold items_of. by intros ->. Qed.

Lemma wf_list_at s : wf s -> list_at (heap s) (_tasks (self s)) = Some (items_of s).
Proof. intros [[items H] _ _ _ _]. unfold items_of. by rewrite H. Qed.

Lemma wf_item s l :
  wf s -> l ∈ items_of s ->
  exists t, task_at (heap s) l = Some t /\ registered (_next_id (self s)) t.
Proof.
  intros Hwf Hl. pose proof (wf_items s Hwf) as H.
  rewrite Forall_forall in H. by apply H.
Qed.

Lemma wf_tasks_not_item s : wf s -> _tasks (self s) ∉ items_of s.
Proof.
  intros Hwf Hin. destruct (wf_item s _ Hwf Hin) as (t & Ht & _).
  apply task_not_list in Ht. rewrite (wf_list_at s Hwf) in Ht. discriminate.
Qed.

Lemma id_at_task h l t : task_at h l = Some t -> id_at h l = Task._id t.
Proof. unfold id_at. by intros ->. Qed.

Lemma wf_items_nodup s : wf s -> NoDup (items_of s).
Proof. intros Hwf. eapply NoDup_fmap_1, (wf_ids s Hwf). Qed.

(** *** The lookup loop *)

Lemma find_loop_spec s task_id items :
  Forall (fun l => is_Some (task_at (heap s) l)) items ->
  TodoService.find_loop task_id items s
  = (Ok (lookup_id (heap s) task_id items), s).
Proof.
  induction 1 as [|l items [t Ht] _ IH]; simpl; [done|].
  unfold bind at 1. rewrite (get_task_at s l t Ht).
  rewrite (id_at_task _ _ _ Ht).
  by destruct (py_eq (Task._id t) task_id).
Qed.

Lemma wf_items_tasks s :
  wf s -> Forall (fun l => is_Some (task_at (heap s) l)) (items_of s).
Proof.
  intros Hwf. eapply Forall_impl; [apply (wf_items s Hwf)|].
  intros l (t & Ht & _). by exists t.
Qed.

Lemma get_task_by_id_spec s task_id :
  wf s -> TodoService.get_task_by_id task_id s = (Ok (find s task_id), s).
Proof.
  intros Hwf. unfold TodoService.get_task_by_id, bind, get_self.
  rewrite (get_list_at s _ _ (wf_list_at s Hwf)).
  by apply find_loop_spec, wf_items_tasks.
Qed.

Lemma existing_spec s task_id :
  wf s -> TodoService.existing task_id s = (Ok (find s task_id), s).
Proof.
  intros Hwf.
  unfold TodoService.existing, try_except, TodoService._validate_task_exists.
  unfold bind. rewrite (get_task_by_id_spec s task_id Hwf).
  by destruct (find s task_id).
Qed.

Lemma lookup_id_Some h task_id items l :
  lookup_id h task_id items = Some l ->
  exists pre post,
    items = pre ++ l :: post
    /\ py_eq (id_at h l) task_id = true
    /\ Forall (fun l' => py_eq (id_at h l') task_id = false) pre.
Proof.
  induction items as [|x items IH]; simpl; [done|].
  destruct (py_eq (id_at h x) task_id) eqn:E.
  - intros [= ->]. by exists [], items.
  - intros (pre & post & -> & ? & ?)%IH.
    exists (x :: pre), post. split_and!; [done|done|by constructor].
Qed.

Lemma lookup_id_None h task_id items :
  lookup_id h task_id items = None <->
  Forall (fun l => py_eq (id_at h l) task_id = false) items.
Proof.
  induction items as [|x items IH]; simpl; [by split; [constructor|]|].
  destruct (py_eq (id_at h x) task_id) eqn:E.
  - split; [done|]. inversion 1; congruence.
  - rewrite IH. split; [by constructor|by inversion 1].
Qed.

Lemma find_Some s task_id l :
  wf s -> find s task_id = Some l ->
  l ∈ items_of s /\
  exists t, task_at (heap s) l = Some t
            /\ registered (_next_id (self s)) t
            /\ py_eq (Task._id t) task_id = true.
Proof.
  intros Hwf (pre & post & Hi & Heq & _)%lookup_id_Some.
  assert (l ∈ items_of s) as Hl.
  { rewrite Hi. apply elem_of_app. right. apply elem_of_cons. auto. }
  split; [done|].
  destruct (wf_item s l Hwf Hl) as (t & Ht & Hr).
  exists t. by rewrite <- (id_at_task _ _ _ Ht).
Qed.

End StoreFacts.

(** ** Assignments through the setters *)

Section Setters.

Implicit Types (s : state) (l : loc) (t : Task.t) (v : value).

Lemma setattr_title_ok s l t v :
  task_at (heap s) l = Some t -> valid_title v = true ->
  setattr_title l v s = (Ok tt, set_obj s l (OTask (with_title t v))).
Proof.
  intros Ht Hv. unfold setattr_title, bind, lift.
  by rewrite (get_task_at s l t Ht), (set_title_ok t v Hv).
Qed.

Lemma setattr_title_bad s l t v :
  task_at (heap s) l = Some t -> valid_title v = false ->
  exists msg, setattr_title l v s = (Raise (ValueError msg), s).
Proof.
  intros Ht Hv. unfold setattr_title, bind, lift.
  rewrite (get_task_at s l t Ht).
  destruct (set_title_bad t v Hv) as [msg ->]. by exists msg.
Qed.

Lemma setattr_description_ok s l t v :
  task_at (heap s) l = Some t -> valid_description v = true ->
  setattr_description l v s
  = (Ok tt, set_obj s l (OTask (with_description t v))).
Proof.
  intros Ht Hv. unfold setattr_description, bind, lift.
  by rewrite (get_task_at s l t Ht), (set_description_ok t v Hv).
Qed.

Lemma setattr_description_bad s l t v :
  task_at (heap s) l = Some t -> valid_description v = false ->
  exists msg, setattr_description l v s = (Raise (ValueError msg), s).
Proof.
  intros Ht Hv. unfold setattr_description, bind, lift.
  rewrite (get_task_at s l t Ht).
  destruct (set_description_bad t v Hv) as [msg ->]. by exists msg.
Qed.

Lemma setattr_completed_ok s l t v :
  task_at (heap s) l = Some t -> isinstance_bool v = true ->
  setattr_completed l v s
  = (Ok tt, set_obj s l (OTask (with_completed t v))).
Proof.
  intros Ht Hv. unfold setattr_completed, bind, lift.
  by rewrite (get_task_at s l t Ht), (set_completed_ok t v Hv).
Qed.

Lemma task_at_set_obj s l t : task_at (heap (set_obj s l (OTask t))) l = Some t.
Proof. simpl. rewrite task_at_insert_task. by rewrite decide_True. Qed.

Lemma task_at_set_obj_ne s l l' t :
  l <> l' -> task_at (heap (set_obj s l (OTask t))) l' = task_at (heap s) l'.
Proof. intros. simpl. rewrite task_at_insert_task. by rewrite decide_False. Qed.

End Setters.

(** ** The operations on a well-formed registry *)

Section Operations.

Implicit Types (s : state) (l : loc) (t : Task.t) (v : value).

Lemma status_loop_spec s task_id v items l t :
  Forall (fun l => is_Some (task_at (heap s) l)) items ->
  isinstance_bool v = true ->
  lookup_id (heap s) task_id items = Some l ->
  task_at (heap s) l = Some t ->
  TodoService.status_loop task_id v items s
  = (Ok true, set_obj s l (OTask (with_completed t v))).
Proof.
  intros Hall Hv. induction Hall as [|x items [tx Hx] _ IH]; simpl; [done|].
  unfold bind at 1. rewrite (get_task_at s x tx Hx).
  rewrite (id_at_task _ _ _ Hx).
  destruct (py_eq (Task._id tx) task_id); [|done].
  intros [= ->] Ht. assert (tx = t) as -> by congruence.
  unfold bind. by rewrite (setattr_completed_ok s l t v Ht Hv).
Qed.

Lemma update_task_status_missing s task_id v :
  wf s -> find s task_id = None ->
  TodoService.update_task_status task_id v s = (Ok false, s).
Proof.
  intros Hwf Hf. unfold TodoService.update_task_status, bind.
  by rewrite (existing_spec s task_id Hwf), Hf.
Qed.

Lemma update_task_status_bad s task_id v l :
  wf s -> find s task_id = Some l -> isinstance_bool v = false ->
  TodoService.update_task_status task_id v s
  = (Raise (InvalidTaskInputError "Completion status must be a boolean"), s).
Proof.
  intros Hwf Hf Hv. unfold TodoService.update_task_status, bind.
  by rewrite (existing_spec s task_id Hwf), Hf, Hv.
Qed.

Lemma update_task_status_ok s task_id v l t :
  wf s -> find s task_id = Some l -> task_at (heap s) l = Some t ->
  isinstance_bool v = true ->
  TodoService.update_task_status task_id v s
  = (Ok true, set_obj s l (OTask (with_completed t v))).
Proof.
  intros Hwf Hf Ht Hv. unfold TodoService.update_task_status.
  unfold bind at 1. rewrite (existing_spec s task_id Hwf), Hf, Hv. simpl.
  unfold bind, get_self. rewrite (get_list_at s _ _ (wf_list_at s Hwf)).
  by apply status_loop_spec; [apply wf_items_tasks| | |].
Qed.

Lemma update_task_missing s task_id title description :
  wf s -> find s task_id = None ->
  TodoService.update_task task_id title description s = (Ok false, s).
Proof.
  intros Hwf Hf. unfold TodoService.update_task, bind.
  by rewrite (existing_spec s task_id Hwf), Hf.
Qed.

Lemma update_task_bad_title s task_id title description l t :
  wf s -> find s task_id = Some l -> task_at (heap s) l = Some t ->
  is_not_None title = true -> valid_title title = false ->
  exists msg,
    TodoService.update_task task_id title description s
    = (Raise (InvalidTaskInputError ("Invalid title: " +:+ msg)), s).
Proof.
  intros Hwf Hf Ht Hn Hv. unfold TodoService.update_task.
  unfold bind at 1. rewrite (existing_spec s task_id Hwf), Hf, Hn.
  destruct (setattr_title_bad s l t title Ht Hv) as [msg E].
  exists msg. unfold bind, try_except. by rewrite E.
Qed.

Lemma update_task_title_done s task_id title description l t :
  wf s -> find s task_id = Some l -> task_at (heap s) l = Some t ->
  (is_not_None title = true -> valid_title title = true) ->
  TodoService.update_task task_id title description s
  = (do _ <- (if is_not_None description
              then try_except (setattr_description l description)
                     (fun e =>
                        match e with
                        | ValueError msg =>
                            Some (raise (InvalidTaskInputError
                                           ("Invalid description: " +:+ msg)))
                        | _ => None
                        end)
              else ret tt);
     ret true) (title_step s l t title).
Proof.
  intros Hwf Hf Ht Hv. unfold TodoService.update_task.
  unfold bind at 1. rewrite (existing_spec s task_id Hwf), Hf.
  unfold title_step. unfold bind at 1.
  destruct (is_not_None title); [|done].
  unfold try_except. by rewrite (setattr_title_ok s l t title Ht (Hv eq_refl)).
Qed.

Lemma task_at_title_step s l t v :
  task_at (heap s) l = Some t ->
  task_at (heap (title_step s l t v)) l = Some (title_stepped t v).
Proof.
  intros Ht. unfold title_step, title_stepped.
  destruct (is_not_None v); [apply task_at_set_obj|done].
Qed.

Lemma update_task_bad_description s task_id title description l t :
  wf s -> find s task_id = Some l -> task_at (heap s) l = Some t ->
  (is_not_None title = true -> valid_title title = true) ->
  is_not_None description = true -> valid_description description = false ->
  exists msg,
    TodoService.update_task task_id title description s
    = (Raise (InvalidTaskInputError ("Invalid description: " +:+ msg)),
       title_step s l t title).
Proof.
  intros Hwf Hf Ht Hv Hn Hd.
  rewrite (update_task_title_done s task_id title description l t) by done.
  rewrite Hn.
  destruct (setattr_description_bad _ l _ description
              (task_at_title_step s l t title Ht) Hd) as [msg E].
  exists msg. unfold bind, try_except. by rewrite E.
Qed.

Lemma update_task_ok s task_id title description l t :
  wf s -> find s task_id = Some l -> task_at (heap s) l = Some t ->
  (is_not_None title = true -> valid_title title = true) ->
  (is_not_None description = true -> valid_description description = true) ->
  TodoService.update_task task_id title description s
  = (Ok true,
     if is_not_None description
     then set_obj (title_step s l t title) l
            (OTask (with_description (title_stepped t title) description))
     else title_step s l t title).
Proof.
  intros Hwf Hf Ht Hv Hd.
  rewrite (update_task_title_done s task_id title description l t) by done.
  destruct (is_not_None description); [|done].
  unfold bind, try_except.
  by rewrite (setattr_description_ok _ l _ description
                (task_at_title_step s l t title Ht) (Hd eq_refl)).
Qed.

End Operations.

(** ** Preservation of the invariant *)

Section Invariant.

Implicit Types (s : state) (l : loc) (t : Task.t) (v : value).

Lemma registered_mono n m t : n <= m -> registered n t -> registered m t.
Proof. intros Hle (Hv & i & Hi & Hr). split; [done|]. exists i. split; [done|lia]. Qed.

Lemma wf_intro s items :
  list_at (heap s) (_tasks (self s)) = Some items ->
  Forall (fun l => exists t, task_at (heap s) l = Some t
                              /\ registered (_next_id (self s)) t) items ->
  NoDup (map (id_at (heap s)) items) ->
  (forall l t, task_at (heap s) l = Some t -> valid_task t = true) ->
  0 < _next_id (self s) ->
  wf s.
Proof.
  intros Hl Hi Hn Hv Hp. pose proof (items_of_list s items Hl) as E.
  constructor; rewrite ?E; eauto.
Qed.

(** A state that keeps the list, the counter from going down, and the id and
    validity of every task, is well formed again. *)
Lemma wf_frame s s' :
  wf s ->
  list_at (heap s') (_tasks (self s')) = Some (items_of s) ->
  _next_id (self s) <= _next_id (self s') ->
  (forall l t, task_at (heap s) l = Some t ->
     exists t', task_at (heap s') l = Some t'
                /\ Task._id t' = Task._id t /\ valid_task t' = true) ->
  (forall l t', task_at (heap s') l = Some t' -> valid_task t' = true) ->
  wf s'.
Proof.
  intros Hwf Hl Hle Hkeep Hval.
  apply (wf_intro s' (items_of s)); [done| | |done|].
  - eapply Forall_impl; [apply (wf_items s Hwf)|].
    intros l (t & Ht & Hr). destruct (Hkeep l t Ht) as (t' & Ht' & Hid & Hv').
    exists t'. split; [done|]. apply (registered_mono (_next_id (self s))); [done|].
    destruct Hr as (_ & i & Hi & Hb). split; [done|]. exists i. by rewrite Hid.
  - assert (map (id_at (heap s')) (items_of s)
            = map (id_at (heap s)) (items_of s)) as ->; [|apply (wf_ids s Hwf)].
    apply map_ext_in. intros l Hl'%list_elem_of_In.
    destruct (wf_item s l Hwf Hl') as (t & Ht & _).
    destruct (Hkeep l t Ht) as (t' & Ht' & Hid & _).
    by rewrite (id_at_task _ _ _ Ht), (id_at_task _ _ _ Ht').
  - pose proof (wf_next s Hwf). lia.
Qed.

Lemma wf_set_task s l t t' :
  wf s -> task_at (heap s) l = Some t ->
  Task._id t' = Task._id t -> valid_task t' = true ->
  wf (set_obj s l (OTask t')).
Proof.
  intros Hwf Ht Hid Hv. apply (wf_frame s); simpl; [done| |lia| |].
  - rewrite list_at_insert_task. rewrite decide_False; [by apply wf_list_at|].
    intros ->. apply task_not_list in Ht. rewrite (wf_list_at s Hwf) in Ht.
    discriminate.
  - intros l0 t0 Ht0. rewrite task_at_insert_task.
    destruct (decide (l = l0)) as [->|].
    + exists t'. split_and!; [done| |done]. congruence.
    + exists t0. split_and!; [done|done|]. by apply (wf_valid s Hwf l0).
  - intros l0 t0. rewrite task_at_insert_task.
    destruct (decide (l = l0)); [congruence|]. apply (wf_valid s Hwf).
Qed.

Lemma wf_set_list s l items :
  wf s -> l <> _tasks (self s) -> task_at (heap s) l = None ->
  wf (set_obj s l (OList items)).
Proof.
  intros Hwf Hne Hnone. apply (wf_frame s); simpl; [done| |lia| |].
  - rewrite list_at_insert_list. rewrite decide_False; [by apply wf_list_at|done].
  - intros l0 t0 Ht0. rewrite task_at_insert_list.
    destruct (decide (l = l0)) as [->|]; [congruence|].
    exists t0. split_and!; [done|done|]. by apply (wf_valid s Hwf l0).
  - intros l0 t0. rewrite task_at_insert_list.
    destruct (decide (l = l0)); [done|]. apply (wf_valid s Hwf).
Qed.

Lemma wf_init h :
  (forall l t, task_at h l = Some t -> valid_task t = true) ->
  wf (TodoService.__init__ h).
Proof.
  intros Hv. apply (wf_intro _ []); simpl.
  - rewrite list_at_insert_list. by rewrite decide_True.
  - constructor.
  - constructor.
  - intros l t. rewrite task_at_insert_list.
    destruct (decide _); [done|]. apply Hv.
  - lia.
Qed.

Lemma wf_init_state : wf init_state.
Proof. apply wf_init. intros l t. unfold task_at. by rewrite lookup_empty. Qed.

End Invariant.

(** ** Adding, copying and deleting *)

Section AddDelete.

Implicit Types (s : state) (l : loc) (t : Task.t) (v : value).

Lemma task_at_insert_list_keep (h : gmap loc obj) l l' items :
  task_at h l = None -> task_at (<[l := OList items]> h) l' = task_at h l'.
Proof.
  intros H. rewrite task_at_insert_list.
  destruct (decide (l = l')); congruence.
Qed.

Lemma wf_tasks_no_task s : wf s -> task_at (heap s) (_tasks (self s)) = None.
Proof.
  intros Hwf. destruct (task_at (heap s) (_tasks (self s))) eqn:E; [|done].
  apply task_not_list in E. rewrite (wf_list_at s Hwf) in E. discriminate.
Qed.

Lemma fresh_not_tasks s : wf s -> fresh (dom (heap s)) <> _tasks (self s).
Proof.
  intros Hwf E. pose proof (fresh_list_at (heap s)) as H.
  rewrite E, (wf_list_at s Hwf) in H. discriminate.
Qed.

Lemma valid_title_str v :
  valid_title v = true ->
  exists ts, v = VStr ts /\ truthy v = true /\ all_space ts = false.
Proof.
  destruct v as [| | |ts]; simpl; try done. unfold title_ok.
  intros [[H1 H2]%andb_prop _]%andb_prop. exists ts. split_and!; [done|done|].
  by destruct (all_space ts).
Qed.

Lemma add_task_ok s title description :
  wf s -> valid_title title = true -> valid_description description = true ->
  TodoService.add_task title description s
  = (Ok (fresh (dom (heap s))), added s title description).
Proof.
  intros Hwf Ht Hd. destruct (valid_title_str title Ht) as (ts & -> & Htr & Hsp).
  pose proof (init_cases (VInt (_next_id (self s))) (VStr ts) description
                (VBool false)) as Hi.
  assert (valid_task (Task.mk (VInt (_next_id (self s))) (VStr ts)
                        description (VBool false)) = true) as Hv.
  { apply valid_task_fields. split_and!; [|done|done|done].
    unfold valid_id; simpl. apply Z.ltb_lt, (wf_next s Hwf). }
  rewrite Hv in Hi.
  pose proof (wf_list_at s Hwf) as Hl. unfold list_at in Hl.
  unfold TodoService.add_task, bind, try_except, lift, ret, get_self, alloc,
    list_append, bind, get_list, put, set_next_id, ret, call_strip.
  rewrite Htr. cbn [negb]. rewrite strip_eqb, Hsp, Hi. cbn [heap self].
  rewrite lookup_insert_ne by (by apply fresh_not_tasks).
  destruct (heap s !! _tasks (self s)) as [[|items]|] eqn:E; try done.
  injection Hl as Hl. subst items. reflexivity.
Qed.

(** Every rejected [add_task] leaves the state alone; a string title that is
    rejected, or a rejected description, is reported as
    [InvalidTaskInputError]. *)
Lemma add_task_rejected s title description :
  valid_title title && valid_description description = false ->
  exists e,
    TodoService.add_task title description s = (Raise e, s)
    /\ (isinstance_str title = true \/ truthy title = false ->
        exists msg, e = InvalidTaskInputError msg).
Proof.
  intros Hbad. unfold TodoService.add_task.
  destruct (truthy title) eqn:Htr; simpl negb; cbv iota.
  2:{ eexists. split; [reflexivity|]. intros _. by eexists. }
  destruct title as [|b|n|ts].
  - done.
  - exists AttributeError. split; [done|]. by intros [|].
  - exists AttributeError. split; [done|]. by intros [|].
  - pose proof (init_cases (VInt (_next_id (self s))) (VStr ts) description
                  (VBool false)) as Hi.
    unfold bind, try_except, lift, ret, get_self, raise, call_strip.
    rewrite strip_eqb.
    destruct (all_space ts) eqn:Hsp.
    { eexists. split; [reflexivity|]. intros _. by eexists. }
    destruct (valid_task _) eqn:Hv.
    { apply valid_task_fields in Hv as (_ & H1 & H2 & _).
      rewrite H1, H2 in Hbad. done. }
    destruct Hi as [msg Hi]. rewrite Hi.
    eexists. split; [reflexivity|]. intros _. by eexists.
Qed.

Lemma wf_added s title description :
  wf s -> valid_title title = true -> valid_description description = true ->
  wf (added s title description).
Proof.
  intros Hwf Ht Hd. set (l := fresh (dom (heap s))).
  pose proof (fresh_not_tasks s Hwf) as Hne. fold l in Hne.
  pose proof (fresh_task_at (heap s)) as Hfr. fold l in Hfr.
  assert (valid_task (new_task s title description) = true) as Hv.
  { apply valid_task_fields. split_and!; [|done|done|done].
    unfold valid_id; simpl. apply Z.ltb_lt, (wf_next s Hwf). }
  assert (forall l', task_at (heap (added s title description)) l'
                     = if decide (l = l')
                       then Some (new_task s title description)
                       else task_at (heap s) l') as Hat.
  { intros l'. unfold added; cbn [heap]. fold l.
    rewrite task_at_insert_list_keep, task_at_insert_task; [done|].
    rewrite task_at_insert_task, decide_False by done.
    by apply wf_tasks_no_task. }
  assert (forall l', l' ∈ items_of s -> l' <> l) as Hold.
  { intros l' Hl' ->. destruct (wf_item s l Hwf Hl') as (t & Ht' & _).
    congruence. }
  apply (wf_intro _ (items_of s ++ [l])).
  - unfold added; cbn [heap self]. fold l.
    rewrite list_at_insert_list. by rewrite decide_True.
  - apply Forall_app. split.
    + apply Forall_forall. intros l' Hl'.
      destruct (wf_item s l' Hwf Hl') as (t & Ht' & Hr).
      exists t. rewrite Hat, decide_False by (by apply not_eq_sym, Hold).
      split; [done|]. eapply registered_mono; [|done]. simpl. lia.
    + constructor; [|constructor]. exists (new_task s title description).
      rewrite Hat, decide_True by done. split; [done|]. split; [done|].
      exists (_next_id (self s)). simpl. pose proof (wf_next s Hwf).
      split; [done|lia].
  - rewrite map_app. cbn [map].
    assert (map (id_at (heap (added s title description))) (items_of s)
            = map (id_at (heap s)) (items_of s)) as ->.
    { apply map_ext_in. intros l' Hl'%list_elem_of_In. unfold id_at.
      by rewrite Hat, decide_False by (by apply not_eq_sym, Hold). }
    apply NoDup_app. split_and!; [apply (wf_ids s Hwf)| |apply NoDup_singleton].
    intros v Hv1 Hv2%list_elem_of_singleton.
    apply list_elem_of_fmap in Hv1 as (l' & Hv1 & Hl').
    destruct (wf_item s l' Hwf Hl') as (t & Ht' & _ & i & Hi & Hb).
    rewrite (id_at_task _ _ _ Ht'), Hi in Hv1.
    unfold id_at in Hv2. rewrite Hat, decide_True in Hv2 by done.
    simpl in Hv2. simplify_eq. lia.
  - intros l' t. rewrite Hat. destruct (decide (l = l')); [congruence|].
    apply (wf_valid s Hwf).
  - simpl. pose proof (wf_next s Hwf). lia.
Qed.

Lemma get_all_tasks_spec s :
  wf s ->
  TodoService.get_all_tasks s
  = (Ok (fresh (dom (heap s))),
     set_obj s (fresh (dom (heap s))) (OList (items_of s))).
Proof.
  intros Hwf. unfold TodoService.get_all_tasks, bind, get_self, list_copy, bind.
  by rewrite (get_list_at s _ _ (wf_list_at s Hwf)).
Qed.

Lemma remove_first_app l pre post :
  l ∉ pre -> remove_first l (pre ++ l :: post) = Some (pre ++ post).
Proof.
  induction pre as [|x pre IH]; simpl; intros Hn.
  - by rewrite decide_True.
  - apply not_elem_of_cons in Hn as [Hx Hn].
    rewrite decide_False by done. by rewrite IH.
Qed.

Lemma delete_task_missing s task_id :
  wf s -> find s task_id = None ->
  TodoService.delete_task task_id s = (Ok false, s).
Proof.
  intros Hwf Hf. unfold TodoService.delete_task, bind.
  by rewrite (existing_spec s task_id Hwf), Hf.
Qed.

Lemma delete_task_ok s task_id l :
  wf s -> find s task_id = Some l ->
  exists pre post,
    items_of s = pre ++ l :: post
    /\ (l ∉ pre ++ post)
    /\ TodoService.delete_task task_id s
       = (Ok true, set_obj s (_tasks (self s)) (OList (pre ++ post))).
Proof.
  intros Hwf Hf.
  destruct (lookup_id_Some _ _ _ _ Hf) as (pre & post & Hi & _ & _).
  pose proof (wf_items_nodup s Hwf) as Hnd. rewrite Hi in Hnd.
  apply NoDup_app in Hnd as (_ & Hpre & Hpost).
  apply NoDup_cons in Hpost as [Hl2 _].
  assert (l ∉ pre) as Hl1 by (intros H; apply (Hpre l H), elem_of_cons; auto).
  exists pre, post. split_and!; [done|by apply not_elem_of_app|].
  unfold TodoService.delete_task, bind.
  rewrite (existing_spec s task_id Hwf), Hf. unfold get_self, list_remove, bind.
  rewrite (get_list_at s _ _ (wf_list_at s Hwf)), Hi.
  by rewrite remove_first_app.
Qed.

Lemma wf_deleted s pre l post :
  wf s -> items_of s = pre ++ l :: post ->
  wf (set_obj s (_tasks (self s)) (OList (pre ++ post))).
Proof.
  intros Hwf Hi. pose proof (wf_tasks_no_task s Hwf) as Hnt.
  apply (wf_intro _ (pre ++ post)); simpl.
  - rewrite list_at_insert_list. by rewrite decide_True.
  - pose proof (wf_items s Hwf) as H. rewrite Hi in H.
    apply Forall_app in H as [H1 H2%Forall_cons_1]. destruct H2 as [_ H2].
    apply Forall_app. split; (eapply Forall_impl; [eassumption|]);
      intros l' (t & Ht & Hr); exists t;
      by rewrite task_at_insert_list_keep.
  - assert (map (id_at (<[_tasks (self s) := OList (pre ++ post)]> (heap s)))
              (pre ++ post)
            = map (id_at (heap s)) (pre ++ post)) as ->.
    { apply map_ext. intros l'. unfold id_at.
      by rewrite task_at_insert_list_keep. }
    pose proof (wf_ids s Hwf) as H. rewrite Hi, map_app in H. simpl in H.
    rewrite map_app. apply NoDup_app in H as (H1 & H2 & H3).
    apply NoDup_cons in H3 as [_ H3]. apply NoDup_app.
    split_and!; [done| |done]. intros x Hx Hx'. apply (H2 x Hx), elem_of_cons. auto.
  - intros l' t. rewrite task_at_insert_list_keep by done.
    apply (wf_valid s Hwf).
  - apply (wf_next s Hwf).
Qed.

End AddDelete.

(** ** Sequences of calls *)

Section Calls.

Implicit Types (s : state) (l : loc) (t : Task.t) (v : value).

Lemma valid_with_title t v :
  valid_task t = true -> valid_title v = true ->
  valid_task (with_title t v) = true.
Proof.
  destruct t as [a b c d].
  unfold with_title, with_description, with_completed. simpl.
  rewrite !valid_task_fields. tauto.
Qed.

Lemma valid_with_description t v :
  valid_task t = true -> valid_description v = true ->
  valid_task (with_description t v) = true.
Proof.
  destruct t as [a b c d].
  unfold with_title, with_description, with_completed. simpl.
  rewrite !valid_task_fields. tauto.
Qed.

Lemma valid_with_completed t v :
  valid_task t = true -> isinstance_bool v = true ->
  valid_task (with_completed t v) = true.
Proof.
  destruct t as [a b c d].
  unfold with_title, with_description, with_completed. simpl.
  rewrite !valid_task_fields. tauto.
Qed.

Lemma valid_title_stepped t v :
  valid_task t = true -> (is_not_None v = true -> valid_title v = true) ->
  valid_task (title_stepped t v) = true.
Proof.
  intros Ht Hv. unfold title_stepped.
  destruct (is_not_None v); [by apply valid_with_title, Hv|done].
Qed.

Lemma wf_title_step s l t v :
  wf s -> task_at (heap s) l = Some t ->
  (is_not_None v = true -> valid_title v = true) ->
  wf (title_step s l t v).
Proof.
  intros Hwf Ht Hv. unfold title_step.
  destruct (is_not_None v); [|done].
  apply (wf_set_task s l t); [done|done|done|].
  apply valid_with_title; [by apply (wf_valid s Hwf l)|by apply Hv].
Qed.

(** What [update_task] does to a well-formed state, by cases. *)
Lemma update_task_cases s task_id title description :
  wf s ->
  exists r s',
    TodoService.update_task task_id title description s = (r, s')
    /\ r <> Fault /\ wf s' /\ self s' = self s.
Proof.
  intros Hwf. destruct (find s task_id) as [l|] eqn:Hf.
  2:{ exists (Ok false), s. by rewrite update_task_missing. }
  destruct (find_Some s task_id l Hwf Hf) as (_ & t & Ht & _).
  destruct (is_not_None title && negb (valid_title title)) eqn:E1.
  { apply andb_prop in E1 as [Hn Hb%negb_true_iff].
    destruct (update_task_bad_title s task_id title description l t)
      as [msg ->]; try done. by eexists _, _. }
  assert (is_not_None title = true -> valid_title title = true) as Hv.
  { intros Hn. rewrite Hn in E1. simpl in E1. by apply negb_false_iff. }
  pose proof (wf_title_step s l t title Hwf Ht Hv) as Hwf1.
  assert (self (title_step s l t title) = self s) as Hself.
  { unfold title_step. by destruct (is_not_None title). }
  destruct (is_not_None description && negb (valid_description description))
    eqn:E2.
  { apply andb_prop in E2 as [Hn Hb%negb_true_iff].
    destruct (update_task_bad_description s task_id title description l t)
      as [msg ->]; try done. by eexists _, _. }
  assert (is_not_None description = true
          -> valid_description description = true) as Hd.
  { intros Hn. rewrite Hn in E2. simpl in E2. by apply negb_false_iff. }
  rewrite (update_task_ok s task_id title description l t) by done.
  eexists _, _. split; [done|]. split; [done|].
  destruct (is_not_None description) eqn:Hn; [|done].
  split; [|done].
  apply (wf_set_task _ l (title_stepped t title));
    [done|by apply task_at_title_step|done|].
  apply valid_with_description; [|by apply Hd].
  apply valid_title_stepped; [by apply (wf_valid s Hwf l)|done].
Qed.

Lemma update_task_status_cases s task_id v :
  wf s ->
  exists r s',
    TodoService.update_task_status task_id v s = (r, s')
    /\ r <> Fault /\ wf s' /\ self s' = self s.
Proof.
  intros Hwf. destruct (find s task_id) as [l|] eqn:Hf.
  2:{ exists (Ok false), s. by rewrite update_task_status_missing. }
  destruct (find_Some s task_id l Hwf Hf) as (_ & t & Ht & _).
  destruct (isinstance_bool v) eqn:Hv.
  - rewrite (update_task_status_ok s task_id v l t) by done.
    eexists _, _. split_and!; [done|done| |done].
    apply (wf_set_task s l t); [done|done|done|].
    apply valid_with_completed; [by apply (wf_valid s Hwf l)|done].
  - rewrite (update_task_status_bad s task_id v l) by done.
    by eexists _, _.
Qed.

Lemma delete_task_cases s task_id :
  wf s ->
  exists r s',
    TodoService.delete_task task_id s = (r, s')
    /\ r <> Fault /\ wf s' /\ self s' = self s.
Proof.
  intros Hwf. destruct (find s task_id) as [l|] eqn:Hf.
  2:{ exists (Ok false), s. by rewrite delete_task_missing. }
  destruct (delete_task_ok s task_id l Hwf Hf) as (pre & post & Hi & _ & ->).
  eexists _, _. split_and!; [done|done| |done]. by eapply wf_deleted.
Qed.

Lemma call_effect s o :
  wf s ->
  wf (snd (call o s)) /\ fst (call o s) <> Fault
  /\ counter_effect o (fst (call o s)) s (snd (call o s)).
Proof.
  intros Hwf. destruct o as [title description| |task_id
    |task_id title description|task_id completed|task_id|]; unfold call, bind.
  - destruct (valid_title title && valid_description description) eqn:E.
    + apply andb_prop in E as [Ht Hd].
      rewrite (add_task_ok s title description) by done. simpl.
      split_and!; [by apply wf_added|done| |done].
      unfold id_at. rewrite task_at_insert_list_keep.
      * by rewrite task_at_insert_task, decide_True.
      * rewrite task_at_insert_task, decide_False
          by (by apply fresh_not_tasks).
        by apply wf_tasks_no_task.
    + destruct (add_task_rejected s title description E) as (e & -> & _).
      by simpl.
  - rewrite (get_all_tasks_spec s Hwf). simpl. split_and!; [|done|done].
    apply wf_set_list; [done|by apply fresh_not_tasks|apply fresh_task_at].
  - rewrite (get_task_by_id_spec s task_id Hwf). by simpl.
  - destruct (update_task_cases s task_id title description Hwf)
      as (r & s' & -> & Hr & Hwf' & Hs).
    destruct r; simpl; rewrite ?Hs; done.
  - destruct (update_task_status_cases s task_id completed Hwf)
      as (r & s' & -> & Hr & Hwf' & Hs).
    destruct r; simpl; rewrite ?Hs; done.
  - destruct (delete_task_cases s task_id Hwf)
      as (r & s' & -> & Hr & Hwf' & Hs).
    destruct r; simpl; rewrite ?Hs; done.
  - by simpl.
Qed.

Lemma exec_wf ops s : wf s -> wf (exec ops s).
Proof.
  revert s. induction ops as [|o ops IH]; simpl; [done|].
  intros s Hwf. apply IH. by apply call_effect.
Qed.

Lemma assigned_spec ops s :
  wf s ->
  assigned ops s
  = map VInt (seqZ (_next_id (self s)) (Z.of_nat (length (assigned ops s))))
  /\ _next_id (self (exec ops s))
     = _next_id (self s) + Z.of_nat (length (assigned ops s)).
Proof.
  revert s. induction ops as [|o ops IH]; intros s Hwf.
  { simpl. split; [done|lia]. }
  destruct (call_effect s o Hwf) as (Hwf' & _ & Hc).
  cbn [assigned exec]. unfold counter_effect in Hc.
  destruct o; destruct (call _ s) as [r s']; cbn [fst snd] in *;
    destruct (IH _ Hwf') as [IH1 IH2]; clear IH Hwf';
    try (rewrite Hc in IH1, IH2; by destruct r as [[]| |]).
  destruct r as [[l| | | |]| |]; try done;
    try (rewrite Hc in IH1, IH2; by split).
  destruct Hc as [Hid Hn]. cbn [length]. rewrite Hn in IH1, IH2. split.
  - rewrite seqZ_cons by lia. cbn [map]. rewrite Hid. f_equal.
    rewrite IH1 at 1. do 2 f_equal; lia.
  - lia.
Qed.

End Calls.

(** ** Ids *)

Section Ids.

Implicit Types (s : state) (l : loc) (t : Task.t) (v : value).

Lemma py_eq_int_inj i j v :
  py_eq (VInt i) v = true -> py_eq (VInt j) v = true -> i = j.
Proof.
  destruct v as [|b|n|x]; simpl; try done; intros ?%Z.eqb_eq ?%Z.eqb_eq; lia.
Qed.

Lemma find_None s task_id : find s task_id = None <-> no_task s task_id.
Proof.
  unfold find, no_task. rewrite lookup_id_None. apply Forall_forall.
Qed.

Lemma find_has_id s task_id l :
  wf s -> find s task_id = Some l <-> has_id s l task_id.
Proof.
  intros Hwf. split.
  - intros Hf. destruct (find_Some s task_id l Hwf Hf) as (Hl & t & Ht & _ & He).
    split; [done|]. by rewrite (id_at_task _ _ _ Ht).
  - intros [Hl He]. destruct (find s task_id) as [l'|] eqn:Hf.
    2:{ apply find_None in Hf. rewrite (Hf l Hl) in He. done. }
    f_equal.
    destruct (find_Some s task_id l' Hwf Hf)
      as (Hl' & t' & Ht' & (_ & i' & Hi' & _) & He').
    destruct (wf_item s l Hwf Hl) as (t & Ht & _ & i & Hi & _).
    rewrite (id_at_task _ _ _ Ht), Hi in He. rewrite Hi' in He'.
    pose proof (py_eq_int_inj _ _ _ He He') as <-.
    pose proof (wf_ids s Hwf) as Hnd.
    apply list_elem_of_lookup in Hl as [n Hn], Hl' as [n' Hn'].
    assert (n = n') as <-; [|congruence].
    eapply NoDup_lookup; [apply Hnd| |].
    + rewrite list_lookup_fmap, Hn. simpl. by rewrite (id_at_task _ _ _ Ht).
    + rewrite list_lookup_fmap, Hn'. simpl.
      rewrite (id_at_task _ _ _ Ht'). congruence.
Qed.

Lemma has_id_task s l task_id :
  wf s -> has_id s l task_id ->
  exists t, task_at (heap s) l = Some t /\ py_eq (Task._id t) task_id = true.
Proof.
  intros Hwf [Hl He]. destruct (wf_item s l Hwf Hl) as (t & Ht & _).
  exists t. by rewrite <- (id_at_task _ _ _ Ht).
Qed.

Lemma set_obj_same s l t :
  task_at (heap s) l = Some t -> set_obj s l (OTask t) = s.
Proof.
  intros Ht. destruct s as [h me]. unfold set_obj. simpl in *. f_equal.
  apply insert_id. unfold task_at in Ht. by destruct (h !! l) as [[]|]; simplify_eq.
Qed.

Lemma set_obj_twice s l o o' :
  set_obj (set_obj s l o) l o' = set_obj s l o'.
Proof. unfold set_obj. simpl. by rewrite insert_insert_eq. Qed.

Lemma title_step_set s l t v :
  task_at (heap s) l = Some t ->
  title_step s l t v = set_obj s l (OTask (updated t v VNone)).
Proof.
  intros Ht. unfold title_step, updated. simpl.
  destruct (is_not_None v); [done|]. destruct t. by rewrite set_obj_same.
Qed.

End Ids.

(** ** The ids in the registry across calls *)

Section IdsAcrossCalls.

Implicit Types (s : state) (l : loc) (t : Task.t) (v : value).

Lemma no_task_ids s task_id :
  no_task s task_id <-> Forall (fun v => py_eq v task_id = false) (ids_of s).
Proof.
  unfold no_task, ids_of. rewrite Forall_fmap, Forall_forall. done.
Qed.

Lemma items_set_task s l t o :
  wf s -> task_at (heap s) l = Some t -> items_of (set_obj s l o) = items_of s.
Proof.
  intros Hwf Ht. unfold items_of, set_obj, list_at. simpl.
  rewrite lookup_insert_ne; [done|].
  intros ->. rewrite (wf_tasks_no_task s Hwf) in Ht. done.
Qed.

Lemma ids_set_task s l t t' :
  wf s -> task_at (heap s) l = Some t -> Task._id t' = Task._id t ->
  ids_of (set_obj s l (OTask t')) = ids_of s.
Proof.
  intros Hwf Ht Hid. unfold ids_of.
  rewrite (items_set_task s l t (OTask t') Hwf Ht).
  apply map_ext. intros l'. unfold id_at. simpl.
  rewrite task_at_insert_task. destruct (decide (l = l')) as [<-|]; [|done].
  by rewrite Ht.
Qed.

Lemma ids_set_list s c items :
  wf s -> c <> _tasks (self s) -> task_at (heap s) c = None ->
  ids_of (set_obj s c (OList items)) = ids_of s.
Proof.
  intros Hwf Hne Hc. unfold ids_of.
  assert (items_of (set_obj s c (OList items)) = items_of s) as ->.
  { unfold items_of, set_obj, list_at. simpl. by rewrite lookup_insert_ne. }
  apply map_ext. intros l'. unfold id_at. simpl.
  by rewrite task_at_insert_list_keep.
Qed.

Lemma items_added s title description :
  items_of (added s title description)
  = items_of s ++ [fresh (dom (heap s))].
Proof.
  unfold items_of at 1, added, list_at. simpl. by rewrite lookup_insert_eq.
Qed.

Lemma task_at_added s title description l :
  wf s ->
  task_at (heap (added s title description)) l
  = if decide (fresh (dom (heap s)) = l)
    then Some (new_task s title description)
    else task_at (heap s) l.
Proof.
  intros Hwf. unfold added; cbn [heap].
  rewrite task_at_insert_list_keep, task_at_insert_task; [done|].
  rewrite task_at_insert_task, decide_False by (by apply fresh_not_tasks).
  by apply wf_tasks_no_task.
Qed.

Lemma ids_added s title description :
  wf s ->
  ids_of (added s title description)
  = ids_of s ++ [VInt (_next_id (self s))].
Proof.
  intros Hwf. unfold ids_of. rewrite items_added, map_app. f_equal.
  - apply map_ext_in. intros l Hl%list_elem_of_In. unfold id_at.
    rewrite task_at_added by done. rewrite decide_False; [done|].
    intros <-. destruct (wf_item s _ Hwf Hl) as (t & Ht & _).
    rewrite fresh_task_at in Ht. done.
  - cbn [map]. unfold id_at. rewrite task_at_added by done.
    by rewrite decide_True.
Qed.

Lemma ids_deleted s pre l post :
  wf s -> items_of s = pre ++ l :: post ->
  ids_of (set_obj s (_tasks (self s)) (OList (pre ++ post)))
  = map (id_at (heap s)) (pre ++ post).
Proof.
  intros Hwf Hi. unfold ids_of.
  assert (items_of (set_obj s (_tasks (self s)) (OList (pre ++ post)))
          = pre ++ post) as ->.
  { unfold items_of, set_obj, list_at. simpl. by rewrite lookup_insert_eq. }
  apply map_ext. intros l'. unfold id_at. simpl.
  rewrite task_at_insert_list_keep; [done|by apply wf_tasks_no_task].
Qed.

(** A call other than a successful add brings no new id into the registry;
    a successful add brings the old counter. *)
Lemma call_ids s o v :
  wf s -> v ∈ ids_of (snd (call o s)) ->
  v ∈ ids_of s \/ v = VInt (_next_id (self s)).
Proof.
  intros Hwf. destruct o as [title description| |task_id
    |task_id title description|task_id completed|task_id|]; unfold call, bind.
  - destruct (valid_title title && valid_description description) eqn:E.
    + apply andb_prop in E as [Ht Hd].
      rewrite (add_task_ok s title description) by done. simpl.
      rewrite ids_added by done. intros [H|H%list_elem_of_singleton]%elem_of_app;
        auto.
    + destruct (add_task_rejected s title description E) as (e & -> & _).
      simpl. auto.
  - rewrite (get_all_tasks_spec s Hwf). simpl.
    rewrite ids_set_list;
      [auto|done|by apply fresh_not_tasks|apply fresh_task_at].
  - rewrite (get_task_by_id_spec s task_id Hwf). simpl. auto.
  - destruct (find s task_id) as [l|] eqn:Hf.
    2:{ rewrite update_task_missing by done. simpl. auto. }
    destruct (find_Some s task_id l Hwf Hf) as (_ & t & Ht & _).
    destruct (is_not_None title && negb (valid_title title)) eqn:E1.
    { apply andb_prop in E1 as [Hn Hb%negb_true_iff].
      destruct (update_task_bad_title s task_id title description l t)
        as [msg ->]; try done. simpl. auto. }
    assert (is_not_None title = true -> valid_title title = true) as Hv.
    { intros Hn. rewrite Hn in E1. simpl in E1. by apply negb_false_iff. }
    destruct (is_not_None description && negb (valid_description description))
      eqn:E2.
    { apply andb_prop in E2 as [Hn Hb%negb_true_iff].
      destruct (update_task_bad_description s task_id title description l t)
        as [msg ->]; try done. simpl.
      rewrite (title_step_set s l t title Ht).
      rewrite (ids_set_task s l t); auto. }
    assert (is_not_None description = true
            -> valid_description description = true) as Hd.
    { intros Hn. rewrite Hn in E2. simpl in E2. by apply negb_false_iff. }
    rewrite (update_task_ok s task_id title description l t) by done. simpl.
    rewrite (title_step_set s l t title Ht).
    destruct (is_not_None description).
    + rewrite set_obj_twice. rewrite (ids_set_task s l t); auto.
      unfold with_description, title_stepped, with_title.
      by destruct (is_not_None title).
    + rewrite (ids_set_task s l t); auto.
  - destruct (find s task_id) as [l|] eqn:Hf.
    2:{ rewrite update_task_status_missing by done. simpl. auto. }
    destruct (find_Some s task_id l Hwf Hf) as (_ & t & Ht & _).
    destruct (isinstance_bool completed) eqn:Hv.
    + rewrite (update_task_status_ok s task_id completed l t) by done.
      simpl. rewrite (ids_set_task s l t); auto.
    + rewrite (update_task_status_bad s task_id completed l) by done.
      simpl. auto.
  - destruct (find s task_id) as [l|] eqn:Hf.
    2:{ rewrite delete_task_missing by done. simpl. auto. }
    destruct (delete_task_ok s task_id l Hwf Hf) as (pre & post & Hi & _ & ->).
    simpl. rewrite (ids_deleted s pre l post) by done.
    unfold ids_of. rewrite Hi, !map_app. simpl.
    rewrite !elem_of_app, elem_of_cons. tauto.
  - simpl. auto.
Qed.

Lemma call_next_id s o :
  wf s -> _next_id (self s) <= _next_id (self (snd (call o s))).
Proof.
  intros Hwf. destruct (call_effect s o Hwf) as (_ & _ & Hc).
  unfold counter_effect in Hc.
  destruct o; destruct (call _ s) as [[[]| |] s']; cbn [fst snd] in *;
    try done; lia.
Qed.

Lemma call_retired s o task_id :
  wf s -> retired s task_id -> retired (snd (call o s)) task_id.
Proof.
  intros Hwf [Hno Hlt]. pose proof (call_next_id s o Hwf) as Hle. split.
  - apply no_task_ids, Forall_forall. intros v Hv.
    destruct (call_ids s o v Hwf Hv) as [Hin| ->].
    + apply no_task_ids in Hno. rewrite Forall_forall in Hno. by apply Hno.
    + destruct task_id as [|b|n|x]; simpl; try done.
      * apply Z.eqb_neq. specialize (Hlt _ eq_refl). lia.
      * apply Z.eqb_neq. specialize (Hlt _ eq_refl). lia.
  - intros n Hn. specialize (Hlt n Hn). lia.
Qed.

Lemma exec_retired ops s task_id :
  wf s -> retired s task_id -> retired (exec ops s) task_id.
Proof.
  revert s. induction ops as [|o ops IH]; simpl; [done|].
  intros s Hwf Hr. apply IH; [by apply call_effect|by apply call_retired].
Qed.

(** Right after its deletion, an id is out of use. *)
Lemma deleted_retired s task_id l :
  wf s -> has_id s l task_id ->
  retired (snd (TodoService.delete_task task_id s)) task_id.
Proof.
  intros Hwf Hid. pose proof Hid as Hf. apply find_has_id in Hf; [|done].
  destruct (find_Some s task_id l Hwf Hf)
    as (_ & t & Ht & (_ & i & Hi & Hb) & He).
  destruct (delete_task_ok s task_id l Hwf Hf) as (pre & post & Hitems & Hl & ->).
  simpl. split.
  - apply no_task_ids. rewrite (ids_deleted s pre l post) by done.
    apply Forall_fmap, Forall_forall. intros l' Hl'. simpl.
    destruct (py_eq (id_at (heap s) l') task_id) eqn:E; [|done].
    assert (has_id s l' task_id) as Hid'.
    { split; [|done]. rewrite Hitems.
      rewrite elem_of_app, elem_of_cons. rewrite elem_of_app in Hl'. tauto. }
    apply find_has_id in Hid'; [|done]. by simplify_eq.
  - intros n Hn. rewrite Hi in He.
    destruct task_id as [|b|m|x]; simpl in *; try done;
      injection Hn as <-; apply Z.eqb_eq in He; lia.
Qed.

End IdsAcrossCalls.

(** * The claims *)

(** ** Task validation *)

Lemma init_typed_valid n title description completed :
  valid_task (Task.mk (VInt n) (VStr title) (VStr description) completed)
  = false <->
  n <= 0 \/ title = "" \/ all_space title = true \/ 200 < len title
  \/ 1000 < len description \/ isinstance_bool completed = false.
Proof.
  unfold valid_task, valid_id, title_ok, description_ok; simpl.
  unfold title_ok, description_ok.
  rewrite !andb_false_iff, !negb_false_iff, String.eqb_eq.
  rewrite Z.ltb_ge, !Z.leb_gt. tauto.
Qed.

Lemma value_error_not_ok {A} (r : result A) a : value_error r -> r <> Ok a.
Proof. intros [msg ->]. done. Qed.

Lemma setter_fails_as_init t v e :
  valid_task t = true ->
  (Task.set_title t v = Raise e <->
   Task.__init__ (Task._id t) v (Task._description t) (Task._completed t)
   = Raise e)
  /\ (Task.set_description t v = Raise e <->
      Task.__init__ (Task._id t) (Task._title t) v (Task._completed t)
      = Raise e)
  /\ (Task.set_completed t v = Raise e <->
      Task.__init__ (Task._id t) (Task._title t) (Task._description t) v
      = Raise e).
Proof.
  destruct t as [a b c d]. intros (Ha & Hb & Hc & Hd)%valid_task_fields.
  pose proof (validate_id_cases a) as Va. rewrite Ha in Va.
  pose proof (validate_title_cases b) as Vb. rewrite Hb in Vb.
  pose proof (validate_description_cases c) as Vc. rewrite Hc in Vc.
  pose proof (validate_completed_cases d) as Vd. rewrite Hd in Vd.
  unfold Task.set_title, Task.set_description, Task.set_completed,
    Task.__init__; simpl. rewrite Va. simpl. split_and!.
  - destruct (Task._validate_title v); simpl; [|done|done].
    rewrite Vc, Vd. simpl. done.
  - rewrite Vb. simpl.
    destruct (Task._validate_description v); simpl; [|done|done].
    rewrite Vd. simpl. done.
  - rewrite Vb, Vc. simpl.
    destruct (Task._validate_completed v); simpl; done.
Qed.

Lemma setter_keeps_valid t v t' :
  valid_task t = true ->
  Task.set_title t v = Ok t' \/ Task.set_description t v = Ok t'
  \/ Task.set_completed t v = Ok t' ->
  valid_task t' = true.
Proof.
  intros Hv [H|[H|H]].
  - destruct (valid_title v) eqn:E.
    + rewrite set_title_ok in H by done. injection H as <-.
      by apply valid_with_title.
    + by apply set_title_bad with (t := t), (value_error_not_ok _ t') in E.
  - destruct (valid_description v) eqn:E.
    + rewrite set_description_ok in H by done. injection H as <-.
      by apply valid_with_description.
    + by apply set_description_bad with (t := t), (value_error_not_ok _ t') in E.
  - destruct (isinstance_bool v) eqn:E.
    + rewrite set_completed_ok in H by done. injection H as <-.
      by apply valid_with_completed.
    + by apply set_completed_bad with (t := t), (value_error_not_ok _ t') in E.
Qed.

(** C3: constructing a Task from an integer id, string title and description
    and any [completed] value raises [ValueError] exactly when the id is not
    positive, the title is empty, whitespace-only or longer than 200
    characters, the description is longer than 1000 characters, or
    [completed] is not a boolean, and otherwise returns the Task holding
    these fields.  On a valid Task each setter raises exactly the exception
    that construction with that field replaced raises, and a setter that
    returns yields a valid Task; so every Task object in the store after any
    sequence of registry calls has valid fields. *)
Theorem C3_task_validation :
  (forall (n : Z) (title description : string) (completed : value),
     let r := Task.__init__ (VInt n) (VStr title) (VStr description) completed in
     (value_error r <->
      n <= 0 \/ title = "" \/ all_space title = true \/ 200 < len title
      \/ 1000 < len description \/ isinstance_bool completed = false)
     /\ (value_error r
         \/ r = Ok (Task.mk (VInt n) (VStr title) (VStr description) completed)))
  /\ (forall t v e,
        valid_task t = true ->
        (Task.set_title t v = Raise e <->
         Task.__init__ (Task._id t) v (Task._description t) (Task._completed t)
         = Raise e)
        /\ (Task.set_description t v = Raise e <->
            Task.__init__ (Task._id t) (Task._title t) v (Task._completed t)
            = Raise e)
        /\ (Task.set_completed t v = Raise e <->
            Task.__init__ (Task._id t) (Task._title t) (Task._description t) v
            = Raise e))
  /\ (forall a b c d t, Task.__init__ a b c d = Ok t -> valid_task t = true)
  /\ (forall t v t',
        valid_task t = true ->
        Task.set_title t v = Ok t' \/ Task.set_description t v = Ok t'
        \/ Task.set_completed t v = Ok t' ->
        valid_task t' = true)
  /\ (forall ops l t,
        task_at (heap (exec ops init_state)) l = Some t -> valid_task t = true).
Proof.
  split_and!.
  - intros n title description completed r.
    pose proof (init_cases (VInt n) (VStr title) (VStr description) completed)
      as Hc. fold r in Hc.
    rewrite <- init_typed_valid. destruct (valid_task _) eqn:Hv.
    + split; [|by right]. split; [|done].
      intros H. by apply (value_error_not_ok _ _ H) in Hc.
    + split; [|by left]. by split.
  - apply setter_fails_as_init.
  - intros a b c d t H. by apply init_ok in H as [_ H].
  - apply setter_keeps_valid.
  - intros ops l t. apply (wf_valid _ (exec_wf ops _ wf_init_state)).
Qed.

Lemma C3_task_validation_witness :
  valid_task (Task.mk (VInt 1) (VStr "Buy milk") (VStr "") (VBool false)) = true
  /\ (Task.set_title (Task.mk (VInt 1) (VStr "Buy milk") (VStr "") (VBool false))
        (VStr "   ")
      = Raise (ValueError "Title cannot be whitespace-only")
      <-> Task.__init__ (VInt 1) (VStr "   ") (VStr "") (VBool false)
          = Raise (ValueError "Title cannot be whitespace-only")).
Proof.
  split; [reflexivity|].
  destruct C3_task_validation as (_ & H & _).
  apply (H (Task.mk (VInt 1) (VStr "Buy milk") (VStr "") (VBool false))
           (VStr "   ") (ValueError "Title cannot be whitespace-only")).
  reflexivity.
Defined.

(** ** Serialization *)

Lemma to_dict_lookups t :
  Task.to_dict t !! "id" = Some (Task._id t)
  /\ Task.to_dict t !! "title" = Some (Task._title t)
  /\ Task.to_dict t !! "description" = Some (Task._description t)
  /\ Task.to_dict t !! "completed" = Some (Task._completed t).
Proof. unfold Task.to_dict. split_and!; by simplify_map_eq. Qed.

Lemma from_dict_insert_default data k d :
  data !! k = None -> (k = "description" /\ d = VStr "")
                      \/ (k = "completed" /\ d = VBool false) ->
  Task.from_dict (<[k := d]> data) = Task.from_dict data.
Proof.
  intros Hk Hcase. unfold Task.from_dict, Task.getitem, Task.dict_get.
  destruct Hcase as [[-> ->]|[-> ->]];
    rewrite !lookup_insert, Hk; repeat case_decide; done.
Qed.

(** C8: for every Task [t] with valid fields, [from_dict (to_dict t)] returns
    a Task equal to [t] in all four fields; [from_dict] reads a missing
    ["description"] key as the empty string and a missing ["completed"] key
    as [False]. *)
Theorem C8_dict_roundtrip :
  (forall t, valid_task t = true -> Task.from_dict (Task.to_dict t) = Ok t)
  /\ (forall data,
        data !! "description" = None ->
        Task.from_dict data
        = Task.from_dict (<["description" := VStr ""]> data))
  /\ (forall data,
        data !! "completed" = None ->
        Task.from_dict data
        = Task.from_dict (<["completed" := VBool false]> data))
  /\ (forall task_id title,
        valid_id task_id = true -> valid_title title = true ->
        Task.from_dict (<["id" := task_id]> (<["title" := title]> ∅))
        = Ok (Task.mk task_id title (VStr "") (VBool false))).
Proof.
  split_and!.
  - intros t Hv. destruct (to_dict_lookups t) as (H1 & H2 & H3 & H4).
    unfold Task.from_dict, Task.getitem, Task.dict_get.
    rewrite H1, H2, H3, H4. simpl.
    pose proof (init_cases (Task._id t) (Task._title t) (Task._description t)
                  (Task._completed t)) as Hc.
    destruct t as [a b c d]. simpl in *. by rewrite Hv in Hc.
  - intros data Hk. symmetry. apply from_dict_insert_default; auto.
  - intros data Hk. symmetry. apply from_dict_insert_default; auto.
  - intros task_id title Hi Ht.
    unfold Task.from_dict, Task.getitem, Task.dict_get.
    rewrite lookup_insert_eq. simpl.
    rewrite lookup_insert_ne, lookup_insert_eq by done. simpl.
    rewrite !lookup_insert_ne, !lookup_empty by done. simpl.
    pose proof (init_cases task_id title (VStr "") (VBool false)) as Hc.
    assert (valid_task (Task.mk task_id title (VStr "") (VBool false)) = true)
      as Hv by (by apply valid_task_fields).
    by rewrite Hv in Hc.
Qed.

Lemma C8_dict_roundtrip_witness :
  valid_task (Task.mk (VInt 4) (VStr "Test Task") (VStr "Test Description")
                (VBool true)) = true
  /\ Task.from_dict
       (Task.to_dict (Task.mk (VInt 4) (VStr "Test Task")
                        (VStr "Test Description") (VBool true)))
     = Ok (Task.mk (VInt 4) (VStr "Test Task") (VStr "Test Description")
             (VBool true)).
Proof.
  split; [reflexivity|].
  destruct C8_dict_roundtrip as (H & _). apply H. reflexivity.
Defined.

(** ** Updating *)

Ltac in_items := apply list_elem_of_In; vm_compute; tauto.

Lemma wf_demo : wf demo.
Proof. apply exec_wf, wf_init_state. Qed.

Lemma updated_after_title t title description :
  is_not_None description = true ->
  with_description (title_stepped t title) description
  = updated t title description.
Proof.
  intros Hd. unfold with_description, title_stepped, updated, with_title.
  rewrite Hd. by destruct (is_not_None title).
Qed.

(** C4: [update_task] returns [False], changing nothing, when no task has
    the id.  When task [l] has it: a provided title that fails validation
    raises [InvalidTaskInputError] and leaves the state (so the description
    too) as it was; otherwise the title, if provided, is applied first, and a
    provided description that fails validation then raises
    [InvalidTaskInputError]; otherwise exactly the provided fields of that
    task are replaced and the call returns [True], also when neither field
    was provided, in which case nothing changes. *)
Theorem C4_update_task s task_id title description (Hwf : wf s) :
  (no_task s task_id ->
   TodoService.update_task task_id title description s = (Ok false, s))
  /\ (forall l t,
        has_id s l task_id -> task_at (heap s) l = Some t ->
        (is_not_None title = true -> valid_title title = false ->
         exists msg,
           TodoService.update_task task_id title description s
           = (Raise (InvalidTaskInputError ("Invalid title: " +:+ msg)), s))
        /\ ((is_not_None title = true -> valid_title title = true) ->
            is_not_None description = true ->
            valid_description description = false ->
            exists msg,
              TodoService.update_task task_id title description s
              = (Raise (InvalidTaskInputError
                          ("Invalid description: " +:+ msg)),
                 set_obj s l (OTask (updated t title VNone))))
        /\ ((is_not_None title = true -> valid_title title = true) ->
            (is_not_None description = true ->
             valid_description description = true) ->
            TodoService.update_task task_id title description s
            = (Ok true, set_obj s l (OTask (updated t title description))))
        /\ (title = VNone -> description = VNone ->
            TodoService.update_task task_id title description s
            = (Ok true, s))).
Proof.
  split.
  { intros Hno. by apply update_task_missing, find_None. }
  intros l t Hid Ht. apply (find_has_id s task_id l Hwf) in Hid.
  split_and!.
  - intros Hn Hv. by apply (update_task_bad_title s task_id _ _ l t).
  - intros Hv Hn Hd.
    rewrite <- (title_step_set s l t title Ht).
    by apply update_task_bad_description.
  - intros Hv Hd. rewrite (update_task_ok s task_id _ _ l t) by done.
    f_equal. rewrite (title_step_set s l t title Ht).
    destruct (is_not_None description) eqn:Hn.
    + by rewrite set_obj_twice, updated_after_title.
    + unfold updated. by rewrite Hn.
  - intros -> ->. rewrite (update_task_ok s task_id _ _ l t) by done.
    done.
Qed.

Lemma C4_update_task_witness :
  wf demo
  /\ has_id demo 3%positive (VInt 2)
  /\ TodoService.update_task (VInt 2) VNone VNone demo = (Ok true, demo).
Proof.
  assert (has_id demo 3%positive (VInt 2)) as Hid.
  { split; [in_items|reflexivity]. }
  split; [apply wf_demo|]. split; [exact Hid|].
  destruct (C4_update_task demo (VInt 2) VNone VNone wf_demo) as [_ H].
  destruct (H 3%positive
              (Task.mk (VInt 2) (VStr "Clean") (VStr "") (VBool false))
              Hid eq_refl) as (_ & _ & _ & H4).
  by apply H4.
Defined.

(** ** Completion status *)

(** C5: [update_task_status] returns [False] when no task has the id; when
    task [l] has it, a [completed] that is not a boolean raises
    [InvalidTaskInputError] and changes nothing, and a boolean is stored in
    the [completed] field of that task, the call returning [True]. *)
Theorem C5_update_task_status s task_id completed (Hwf : wf s) :
  (no_task s task_id ->
   TodoService.update_task_status task_id completed s = (Ok false, s))
  /\ (forall l t,
        has_id s l task_id -> task_at (heap s) l = Some t ->
        (isinstance_bool completed = false ->
         TodoService.update_task_status task_id completed s
         = (Raise (InvalidTaskInputError "Completion status must be a boolean"),
            s))
        /\ (forall b,
              completed = VBool b ->
              TodoService.update_task_status task_id completed s
              = (Ok true,
                 set_obj s l
                   (OTask (Task.mk (Task._id t) (Task._title t)
                             (Task._description t) (VBool b)))))).
Proof.
  split.
  { intros Hno. by apply update_task_status_missing, find_None. }
  intros l t Hid Ht. apply (find_has_id s task_id l Hwf) in Hid. split.
  - intros Hb. by apply (update_task_status_bad s task_id completed l).
  - intros b ->. by apply (update_task_status_ok s task_id (VBool b) l t).
Qed.

Lemma C5_update_task_status_witness :
  wf demo
  /\ has_id demo 4%positive (VInt 3)
  /\ TodoService.update_task_status (VInt 3) (VBool true) demo
     = (Ok true,
        set_obj demo 4%positive
          (OTask (Task.mk (VInt 3) (VStr "Paint") (VStr "") (VBool true)))).
Proof.
  assert (has_id demo 4%positive (VInt 3)) as Hid.
  { split; [in_items|reflexivity]. }
  split; [apply wf_demo|]. split; [exact Hid|].
  destruct (C5_update_task_status demo (VInt 3) (VBool true) wf_demo) as [_ H].
  destruct (H 4%positive
              (Task.mk (VInt 3) (VStr "Paint") (VStr "") (VBool false))
              Hid eq_refl) as [_ H2].
  by apply H2.
Defined.

(** C10: in [update_task_status] the existence check comes first: when no
    task has the id the call returns [False] without raising whatever
    [completed] is, and a call that raises does so with
    [InvalidTaskInputError], on an id that some task has and a [completed]
    that is not a boolean. *)
Theorem C10_existence_check_first s task_id (Hwf : wf s) :
  (no_task s task_id ->
   forall completed,
     TodoService.update_task_status task_id completed s = (Ok false, s))
  /\ (forall completed e s',
        TodoService.update_task_status task_id completed s = (Raise e, s') ->
        (exists l, has_id s l task_id)
        /\ isinstance_bool completed = false
        /\ e = InvalidTaskInputError "Completion status must be a boolean").
Proof.
  split.
  { intros Hno completed. by apply update_task_status_missing, find_None. }
  intros completed e s' H. destruct (find s task_id) as [l|] eqn:Hf.
  2:{ rewrite update_task_status_missing in H by done. done. }
  destruct (find_Some s task_id l Hwf Hf) as (_ & t & Ht & _).
  destruct (isinstance_bool completed) eqn:Hb.
  { rewrite (update_task_status_ok s task_id completed l t) in H by done.
    done. }
  rewrite (update_task_status_bad s task_id completed l) in H by done.
  injection H as <- _. split_and!; [|done|done].
  exists l. by apply find_has_id.
Qed.

Lemma C10_existence_check_first_witness :
  wf demo
  /\ no_task demo (VInt 1)
  /\ TodoService.update_task_status (VInt 1) (VStr "invalid") demo
     = (Ok false, demo).
Proof.
  assert (no_task demo (VInt 1)) as Hno.
  { apply find_None. reflexivity. }
  split; [apply wf_demo|]. split; [exact Hno|].
  destruct (C10_existence_check_first demo (VInt 1) wf_demo) as [H _].
  by apply H.
Defined.

(** ** Not found *)

Lemma unassigned_no_task s n :
  wf s -> n <= 0 \/ _next_id (self s) <= n -> no_task s (VInt n).
Proof.
  intros Hwf Hn l Hl.
  destruct (wf_item s l Hwf Hl) as (t & Ht & _ & i & Hi & Hb).
  rewrite (id_at_task _ _ _ Ht), Hi. simpl. apply Z.eqb_neq. lia.
Qed.

(** C6: when no task has the id, [get_task_by_id] returns [None] and
    [update_task], [update_task_status] and [delete_task] return [False],
    whatever their other arguments, without raising and without changing
    anything.  That is the case of an id that was deleted, in every state
    reached afterwards, and of an integer never assigned (not positive, or
    not below the counter). *)
Theorem C6_not_found s task_id (Hwf : wf s) :
  (no_task s task_id ->
   TodoService.get_task_by_id task_id s = (Ok None, s)
   /\ (forall title description,
         TodoService.update_task task_id title description s = (Ok false, s))
   /\ (forall completed,
         TodoService.update_task_status task_id completed s = (Ok false, s))
   /\ TodoService.delete_task task_id s = (Ok false, s))
  /\ (forall l ops,
        has_id s l task_id ->
        no_task (exec ops (snd (TodoService.delete_task task_id s))) task_id)
  /\ (forall n,
        task_id = VInt n -> n <= 0 \/ _next_id (self s) <= n ->
        no_task s task_id).
Proof.
  split_and!.
  - intros Hno%find_None. split_and!.
    + by rewrite get_task_by_id_spec, Hno.
    + intros. by apply update_task_missing.
    + intros. by apply update_task_status_missing.
    + by apply delete_task_missing.
  - intros l ops Hid.
    destruct (delete_task_cases s task_id Hwf) as (r & s' & E & _ & Hwf' & _).
    pose proof (deleted_retired s task_id l Hwf Hid) as Hr.
    rewrite E in *. simpl in *. by apply exec_retired.
  - intros n -> Hn. by apply unassigned_no_task.
Qed.

Lemma C6_not_found_witness :
  wf demo
  /\ no_task demo (VInt 1)
  /\ TodoService.get_task_by_id (VInt 1) demo = (Ok None, demo)
  /\ TodoService.delete_task (VInt 1) demo = (Ok false, demo).
Proof.
  assert (no_task demo (VInt 1)) as Hno.
  { apply find_None. reflexivity. }
  split; [apply wf_demo|]. split; [exact Hno|].
  destruct (C6_not_found demo (VInt 1) wf_demo) as [H _].
  destruct (H Hno) as (H1 & _ & _ & H4). by split.
Defined.

(** ** Deleting *)

(** C7: when task [l] has the id, [delete_task] returns [True] and takes
    exactly that item out of the list: the items before and after it stay,
    in their order; no Task object changes (ids and fields are kept), nor
    does the counter; and [get_all_tasks] then returns the remaining items
    in that order. *)
Theorem C7_delete_task s task_id l (Hwf : wf s) (Hid : has_id s l task_id) :
  exists pre post s',
    items_of s = pre ++ l :: post
    /\ TodoService.delete_task task_id s = (Ok true, s')
    /\ items_of s' = pre ++ post
    /\ (l ∉ pre ++ post)
    /\ (forall l', task_at (heap s') l' = task_at (heap s) l')
    /\ self s' = self s
    /\ exists c s'',
         TodoService.get_all_tasks s' = (Ok c, s'')
         /\ list_at (heap s'') c = Some (pre ++ post).
Proof.
  apply find_has_id in Hid; [|done].
  destruct (delete_task_ok s task_id l Hwf Hid) as (pre & post & Hi & Hl & E).
  pose proof (wf_deleted s pre l post Hwf Hi) as Hwf'.
  set (s' := set_obj s (_tasks (self s)) (OList (pre ++ post))) in *.
  assert (items_of s' = pre ++ post) as Hi'.
  { unfold items_of, s', set_obj, list_at. simpl. by rewrite lookup_insert_eq. }
  exists pre, post, s'. split_and!; try done.
  - intros l'. unfold s'. simpl.
    rewrite task_at_insert_list_keep; [done|by apply wf_tasks_no_task].
  - eexists _, _. split; [by apply get_all_tasks_spec|].
    simpl. rewrite list_at_insert_list, decide_True by done. by rewrite Hi'.
Qed.

Lemma C7_delete_task_witness :
  wf demo
  /\ has_id demo 3%positive (VInt 2)
  /\ exists s',
       TodoService.delete_task (VInt 2) demo = (Ok true, s')
       /\ items_of demo = [3%positive; 4%positive]
       /\ items_of s' = [4%positive].
Proof.
  assert (has_id demo 3%positive (VInt 2)) as Hid.
  { split; [in_items|reflexivity]. }
  split; [apply wf_demo|]. split; [exact Hid|].
  destruct (C7_delete_task demo (VInt 2) 3%positive wf_demo Hid)
    as (pre & post & s' & Hi & E & Hi' & _).
  exists s'. split; [exact E|]. split; [reflexivity|].
  assert (s' = snd (TodoService.delete_task (VInt 2) demo)) as ->
    by (by rewrite E).
  reflexivity.
Defined.

(** ** The copy returned by [get_all_tasks] *)

Lemma set_obj_list_same s c items :
  list_at (heap s) c = Some items -> set_obj s c (OList items) = s.
Proof.
  intros Hc. destruct s as [h me]. unfold set_obj. simpl in *. f_equal.
  apply insert_id. unfold list_at in Hc.
  by destruct (h !! c) as [[]|]; simplify_eq.
Qed.

(** A mutation of the list at [c] changes the object at [c], to a list
    again, and nothing else. *)
Lemma mutate_spec c m s items :
  list_at (heap s) c = Some items ->
  exists items', snd (mutate c m s) = set_obj s c (OList items').
Proof.
  intros Hc. pose proof (get_list_at s c items Hc) as Hg.
  destruct m as [x|x| |new]; simpl;
    unfold list_append, list_remove, list_reverse, bind; rewrite Hg.
  - by eexists.
  - destruct (remove_first x items); simpl; [by eexists|].
    exists items. by rewrite set_obj_list_same.
  - by eexists.
  - by eexists.
Qed.

Lemma mutates_spec c ms s items :
  list_at (heap s) c = Some items ->
  exists items', mutates c ms s = set_obj s c (OList items').
Proof.
  revert s items. induction ms as [|m ms IH]; intros s items Hc; simpl.
  { exists items. by rewrite set_obj_list_same. }
  destruct (mutate_spec c m s items Hc) as [items1 ->].
  destruct (IH (set_obj s c (OList items1)) items1) as [items2 ->].
  { simpl. by rewrite list_at_insert_list, decide_True. }
  exists items2. by rewrite set_obj_twice.
Qed.

Lemma find_set_list s c items task_id :
  wf s -> c <> _tasks (self s) -> task_at (heap s) c = None ->
  find (set_obj s c (OList items)) task_id = find s task_id.
Proof.
  intros Hwf Hne Hc. unfold find.
  assert (items_of (set_obj s c (OList items)) = items_of s) as ->.
  { unfold items_of, set_obj, list_at. simpl. by rewrite lookup_insert_ne. }
  induction (items_of s) as [|l ls IH]; cbn [lookup_id]; [done|].
  rewrite IH. unfold id_at. simpl. by rewrite task_at_insert_list_keep.
Qed.

(** C9: [get_all_tasks] returns a new list object [c], distinct from
    [self._tasks], holding the same items.  Whatever sequence of appends,
    removals, reversals or reassignments a caller applies to [c], no other
    object changes: the registry's own list and counter are as before, every
    later [get_task_by_id] answers as before the copy was taken, and a later
    [get_all_tasks] again returns the registry's items. *)
Theorem C9_defensive_copy s (Hwf : wf s) :
  exists c s1,
    TodoService.get_all_tasks s = (Ok c, s1)
    /\ c <> _tasks (self s)
    /\ heap s !! c = None
    /\ list_at (heap s1) c = Some (items_of s)
    /\ forall ms,
         let s2 := mutates c ms s1 in
         self s2 = self s
         /\ items_of s2 = items_of s
         /\ (forall l, l <> c -> heap s2 !! l = heap s !! l)
         /\ (forall task_id,
               TodoService.get_task_by_id task_id s2
               = (Ok (find s task_id), s2))
         /\ exists c' s3,
              TodoService.get_all_tasks s2 = (Ok c', s3)
              /\ list_at (heap s3) c' = Some (items_of s).
Proof.
  set (c := fresh (dom (heap s))).
  pose proof (fresh_not_tasks s Hwf) as Hne. fold c in Hne.
  pose proof (fresh_task_at (heap s)) as Hct. fold c in Hct.
  assert (heap s !! c = None) as Hfresh by apply not_elem_of_dom, is_fresh.
  exists c, (set_obj s c (OList (items_of s))).
  split; [by apply get_all_tasks_spec|]. split; [done|]. split; [done|].
  split. { simpl. by rewrite list_at_insert_list, decide_True. }
  intros ms s2.
  destruct (mutates_spec c ms (set_obj s c (OList (items_of s))) (items_of s))
    as [items' E].
  { simpl. by rewrite list_at_insert_list, decide_True. }
  rewrite set_obj_twice in E. subst s2. rewrite E.
  pose proof (wf_set_list s c items' Hwf Hne Hct) as Hwf2.
  assert (items_of (set_obj s c (OList items')) = items_of s) as Hi.
  { unfold items_of, set_obj, list_at. simpl. by rewrite lookup_insert_ne. }
  split_and!.
  - done.
  - done.
  - intros l Hl. simpl. by rewrite lookup_insert_ne.
  - intros task_id. rewrite get_task_by_id_spec by done.
    by rewrite find_set_list.
  - eexists _, _. split; [by apply get_all_tasks_spec|].
    simpl. rewrite list_at_insert_list, decide_True by done. by rewrite Hi.
Qed.

Lemma C9_defensive_copy_witness :
  wf demo
  /\ exists c s1,
       TodoService.get_all_tasks demo = (Ok c, s1)
       /\ items_of (mutates c [Reverse; Append c; Remove 3%positive] s1)
          = items_of demo.
Proof.
  split; [apply wf_demo|].
  destruct (C9_defensive_copy demo wf_demo) as (c & s1 & E & _ & _ & _ & H).
  exists c, s1. split; [exact E|].
  destruct (H [Reverse; Append c; Remove 3%positive]) as (_ & Hi & _).
  exact Hi.
Defined.

(** ** Id assignment *)

#[local] Instance VInt_inj : Inj (=) (=) VInt.
Proof. intros x y. congruence. Qed.

(** C2: in every sequence of registry calls on a new registry, the
    successful adds hand out the ids 1, 2, 3, ... in order, whatever calls
    come in between; so no id is handed out twice; and no call makes the
    counter go down. *)
Theorem C2_ids_sequential :
  (forall ops,
     let ids := assigned ops init_state in
     ids = map VInt (seqZ 1 (Z.of_nat (length ids))) /\ NoDup ids)
  /\ (forall ops o,
        let s := exec ops init_state in
        _next_id (self s) <= _next_id (self (snd (call o s)))).
Proof.
  split.
  - intros ops ids.
    destruct (assigned_spec ops init_state wf_init_state) as [E _].
    fold ids in E. split; [exact E|]. rewrite E.
    apply (NoDup_fmap_2 VInt), NoDup_seqZ.
  - intros ops o s. apply call_next_id, exec_wf, wf_init_state.
Qed.

(** The scenario of the specification: add, add, delete 1, add. *)
Example scenario_ids :
  assigned scenario init_state = [VInt 1; VInt 2; VInt 3]
  /\ ids_of demo = [VInt 2; VInt 3]
  /\ find demo (VInt 1) = None.
Proof. split_and!; reflexivity. Qed.

(** ** Invalid input *)

(** C1 fails as stated: on a registry whose task 1 is titled "Original
    Title", [update_task 1 "Updated Title" d] with a description [d] of 1001
    characters raises [InvalidTaskInputError] with the title already
    replaced; and on the id 9, which no task has, [update_task] with an empty
    title and [update_task_status] with a string return [False] without
    raising. *)
Lemma C1_counterexample :
  valid_title (VStr "Updated Title") = true
  /\ valid_description long_text = false
  /\ has_id one_task 2%positive (VInt 1)
  /\ task_at (heap one_task) 2%positive
     = Some (Task.mk (VInt 1) (VStr "Original Title")
               (VStr "Original Description") (VBool false))
  /\ (exists msg s',
        TodoService.update_task (VInt 1) (VStr "Updated Title") long_text
          one_task
        = (Raise (InvalidTaskInputError msg), s')
        /\ task_at (heap s') 2%positive
           = Some (Task.mk (VInt 1) (VStr "Updated Title")
                     (VStr "Original Description") (VBool false))
        /\ s' <> one_task)
  /\ no_task one_task (VInt 9)
  /\ TodoService.update_task (VInt 9) (VStr "") long_text one_task
     = (Ok false, one_task)
  /\ TodoService.update_task_status (VInt 9) (VStr "done") one_task
     = (Ok false, one_task).
Proof.
  split_and!; try by vm_compute.
  - split; [in_items|reflexivity].
  - eexists _, _. split_and!; [by vm_compute|by vm_compute|].
    intros E. apply (f_equal (fun st => task_at (heap st) 2%positive)) in E.
    vm_compute in E. discriminate.
  - apply find_None. reflexivity.
Qed.

(** C1 (amended): on every registry state, [add_task] with a string title
    that is empty, whitespace-only or over 200 characters, or with an invalid
    description, raises [InvalidTaskInputError] and changes nothing.  On an
    id that some task [l] has: [update_task] with a provided invalid title
    raises it and changes nothing; with no title and a provided invalid
    description it raises it and changes nothing; with a valid title and a
    provided invalid description it raises it after the title of [l] has
    been replaced, the description of [l] and every other object being as
    before; and [update_task_status] with a [completed] that is not a
    boolean raises it and changes nothing.  On an id that no task has, both
    return [False] instead, and change nothing. *)
Theorem C1_invalid_input s (Hwf : wf s) :
  (forall (title : string) description,
     title_ok title = false \/ valid_description description = false ->
     exists msg,
       TodoService.add_task (VStr title) description s
       = (Raise (InvalidTaskInputError msg), s))
  /\ (forall task_id l t title description,
        has_id s l task_id -> task_at (heap s) l = Some t ->
        (is_not_None title = true -> valid_title title = false ->
         exists msg,
           TodoService.update_task task_id title description s
           = (Raise (InvalidTaskInputError msg), s))
        /\ (title = VNone -> is_not_None description = true ->
            valid_description description = false ->
            exists msg,
              TodoService.update_task task_id title description s
              = (Raise (InvalidTaskInputError msg), s))
        /\ (valid_title title = true -> is_not_None description = true ->
            valid_description description = false ->
            exists msg,
              TodoService.update_task task_id title description s
              = (Raise (InvalidTaskInputError msg),
                 set_obj s l
                   (OTask (Task.mk (Task._id t) title (Task._description t)
                             (Task._completed t))))))
  /\ (forall task_id l completed,
        has_id s l task_id -> isinstance_bool completed = false ->
        exists msg,
          TodoService.update_task_status task_id completed s
          = (Raise (InvalidTaskInputError msg), s))
  /\ (forall task_id title description completed,
        no_task s task_id ->
        TodoService.update_task task_id title description s = (Ok false, s)
        /\ TodoService.update_task_status task_id completed s
           = (Ok false, s)).
Proof.
  split_and!.
  4:{ intros task_id title description completed Hno%find_None. split.
      - by apply update_task_missing.
      - by apply update_task_status_missing. }
  - intros title description Hbad.
    destruct (add_task_rejected s (VStr title) description) as (e & E & Hm).
    { simpl. destruct Hbad as [->| ->]; [done|apply andb_false_r]. }
    destruct Hm as [msg ->]; [by left|]. by exists msg.
  - intros task_id l t title description Hid Ht.
    apply (find_has_id s task_id l Hwf) in Hid. split_and!.
    + intros Hn Hv.
      destruct (update_task_bad_title s task_id title description l t)
        as [msg E]; try done. by eexists.
    + intros -> Hn Hd.
      destruct (update_task_bad_description s task_id VNone description l t)
        as [msg E]; try done. by eexists.
    + intros Hv Hn Hd.
      destruct (update_task_bad_description s task_id title description l t)
        as [msg E]; try done.
      rewrite E. eexists. f_equal. unfold title_step.
      destruct title; try done.
  - intros task_id l completed Hid Hb.
    apply (find_has_id s task_id l Hwf) in Hid.
    rewrite (update_task_status_bad s task_id completed l) by done.
    by eexists.
Qed.

Lemma C1_invalid_input_witness :
  wf demo
  /\ title_ok "   " = false
  /\ exists msg,
       TodoService.add_task (VStr "   ") (VStr "") demo
       = (Raise (InvalidTaskInputError msg), demo).
Proof.
  split; [apply wf_demo|]. split; [reflexivity|].
  destruct (C1_invalid_input demo wf_demo) as [H _].
  apply H. left. reflexivity.
Defined.

(** * Further properties of the code *)

(** ** Stripping *)

Section Stripping.

Lemma rstrip_cons c s :
  rstrip (String c s)
  = match rstrip s with
    | EmptyString => if isspace c then EmptyString else String c EmptyString
    | r => String c r
    end.
Proof. done. Qed.

Lemma rstrip_idemp s : rstrip (rstrip s) = rstrip s.
Proof.
  induction s as [|c s IH]; [done|]. rewrite rstrip_cons.
  destruct (rstrip s) as [|c' r] eqn:E.
  - destruct (isspace c) eqn:Hc; [done|]. rewrite rstrip_cons. simpl.
    by rewrite Hc.
  - rewrite rstrip_cons, IH. done.
Qed.

Lemma lstrip_head s :
  match lstrip s with
  | EmptyString => True
  | String c _ => isspace c = false
  end.
Proof.
  induction s as [|c s IH]; simpl; [done|].
  by destruct (isspace c) eqn:Hc; simpl.
Qed.

Lemma rstrip_head c s :
  isspace c = false -> exists r, rstrip (String c s) = String c r.
Proof.
  intros Hc. simpl. destruct (rstrip s); [|by eexists].
  rewrite Hc. by eexists.
Qed.

Lemma strip_head s :
  match strip s with
  | EmptyString => True
  | String c _ => isspace c = false
  end.
Proof.
  unfold strip. pose proof (lstrip_head s) as H.
  destruct (lstrip s) as [|c t]; [done|].
  destruct (rstrip_head c t H) as [r ->]. done.
Qed.

Lemma lstrip_fixed s :
  match s with
  | EmptyString => True
  | String c _ => isspace c = false
  end -> lstrip s = s.
Proof. destruct s as [|c t]; simpl; [done|]. by intros ->. Qed.

Lemma rstrip_last s :
  rstrip s = ""
  \/ exists r c, rstrip s = r +:+ String c "" /\ isspace c = false.
Proof.
  induction s as [|a s IH]; simpl; [by left|].
  destruct (rstrip s) as [|c' r'] eqn:E.
  - destruct (isspace a) eqn:Ha; [by left|].
    right. by exists "", a.
  - right. destruct IH as [IH|(r & c & IH & Hc)]; [done|].
    exists (String a r), c. by rewrite IH.
Qed.

Lemma rstrip_len s : len (rstrip s) <= len s.
Proof.
  unfold len. apply inj_le.
  induction s as [|a s IH]; simpl; [done|].
  destruct (rstrip s) as [|c' r'] eqn:E.
  - destruct (isspace a); simpl in *; lia.
  - simpl in *. lia.
Qed.

Lemma lstrip_len s : len (lstrip s) <= len s.
Proof.
  unfold len. apply inj_le.
  induction s as [|a s IH]; simpl; [done|].
  destruct (isspace a); simpl; lia.
Qed.

Lemma strip_idemp s : strip (strip s) = strip s.
Proof.
  unfold strip at 1. rewrite (lstrip_fixed (strip s) (strip_head s)).
  unfold strip. apply rstrip_idemp.
Qed.

Lemma strip_len s : len (strip s) <= len s.
Proof.
  unfold strip. pose proof (rstrip_len (lstrip s)). pose proof (lstrip_len s).
  lia.
Qed.

End Stripping.

(** ** The input helpers *)

(** X16: The validators of [phase1/src/utils/validation.py] accept exactly the
    values the validators of the Task entity accept, for values of every
    type. *)
Theorem validators_agree_with_task (v : value) :
  (Validation.validate_task_id v = true <-> Task._validate_task_id v = Ok tt)
  /\ (Validation.validate_task_title v = true
      <-> Task._validate_title v = Ok tt)
  /\ (Validation.validate_task_description v = true
      <-> Task._validate_description v = Ok tt)
  /\ (Validation.validate_task_completed v = true
      <-> Task._validate_completed v = Ok tt).
Proof.
  unfold Validation.validate_task_id, Task._validate_task_id,
    Validation.validate_task_title, Task._validate_title,
    Validation.validate_task_description, Task._validate_description,
    Validation.validate_task_completed, Task._validate_completed.
  split_and!.
  - by destruct (_ || _).
  - destruct (_ || _); [done|]. destruct v as [| | |s]; try done.
    destruct (String.eqb (strip s) ""); [done|]. by destruct (200 <? len s).
  - destruct v as [| | |s]; try done. by destruct (1000 <? len s).
  - by destruct (negb _).
Qed.

(** X17: [sanitize_input] returns a string without whitespace at either end (its
    first and last characters, if any, are not whitespace), so sanitizing
    its result again changes nothing; on a string it never returns more
    characters than it was given, and on [None] it returns the empty
    string. *)
Theorem sanitize_input_stripped (v : value) :
  let r := Validation.sanitize_input v in
  (r = "" \/ exists c t, r = String c t /\ isspace c = false)
  /\ (r = "" \/ exists t c, r = t +:+ String c "" /\ isspace c = false)
  /\ Validation.sanitize_input (VStr r) = r
  /\ (forall s, v = VStr s -> len r <= len s)
  /\ (v = VNone -> r = "").
Proof.
  assert (forall x, (strip x = "" \/ exists c t, strip x = String c t
                                              /\ isspace c = false)
                    /\ (strip x = "" \/ exists t c,
                           strip x = t +:+ String c "" /\ isspace c = false))
    as Hends.
  { intros x. split.
    - pose proof (strip_head x) as H. destruct (strip x) as [|c t]; [by left|].
      right. by exists c, t.
    - unfold strip. apply rstrip_last. }
  destruct v as [|b|n|s]; simpl.
  - split_and!; auto. done.
  - destruct (Hends (py_str (VBool b))) as [H1 H2].
    split_and!; [done|done|apply strip_idemp|done|done].
  - destruct (Hends (py_str (VInt n))) as [H1 H2].
    split_and!; [done|done|apply strip_idemp|done|done].
  - destruct (Hends s) as [H1 H2].
    split_and!; [done|done|apply strip_idemp| |done].
    intros s' [= <-]. apply strip_len.
Qed.

(** X18: [is_empty_or_whitespace_only] is true of a string exactly when every
    character of it is whitespace (none, for the empty string), which is
    exactly when [sanitize_input] turns it into the empty string; it is true
    of every value that is not a string. *)
Theorem blank_iff_sanitized_empty (v : value) :
  (forall s, v = VStr s ->
     (Validation.is_empty_or_whitespace_only v = true <-> all_space s = true)
     /\ (Validation.is_empty_or_whitespace_only v = true
         <-> Validation.sanitize_input v = ""))
  /\ (isinstance_str v = false ->
      Validation.is_empty_or_whitespace_only v = true).
Proof.
  split.
  - intros s ->. unfold Validation.is_empty_or_whitespace_only. simpl.
    assert ((if negb (negb (String.eqb s "")) || false then true
             else String.eqb (strip s) "") = all_space s) as ->.
    { rewrite strip_eqb. destruct (String.eqb_spec s "") as [->|]; done. }
    split; [done|]. by rewrite strip_empty.
  - intros Hs. unfold Validation.is_empty_or_whitespace_only.
    rewrite Hs. simpl. by rewrite orb_true_r.
Qed.

Lemma blank_iff_sanitized_empty_witness :
  Validation.is_empty_or_whitespace_only (VStr "  ") = true
  <-> all_space "  " = true.
Proof.
  destruct (blank_iff_sanitized_empty (VStr "  ")) as [H _].
  destruct (H "  " eq_refl) as [H1 _]. exact H1.
Defined.

Lemma sanitize_input_stripped_witness :
  len (Validation.sanitize_input (VStr "  Buy milk ")) <= len "  Buy milk ".
Proof.
  destruct (sanitize_input_stripped (VStr "  Buy milk "))
    as (_ & _ & _ & H & _).
  by apply H.
Defined.

(** ** Construction and serialization of Tasks *)

(** X13: For values of every type, [Task(...)] returns the Task holding exactly
    the given values when all four are valid, and otherwise raises
    [ValueError] with the message of the first invalid field in the order
    id, title, description, completed: a value of the wrong type is reported
    like any other invalid value, never by another exception. *)
Theorem init_reports_first_invalid_field (a b c d : value) :
  let r := Task.__init__ a b c d in
  (valid_task (Task.mk a b c d) = true -> r = Ok (Task.mk a b c d))
  /\ (valid_id a = false ->
      r = Raise (ValueError "Task ID must be a positive integer"))
  /\ (valid_id a = true -> valid_title b = false ->
      r = Raise (ValueError
                   match b with
                   | VStr (String _ _ as s) =>
                       if all_space s then "Title cannot be whitespace-only"
                       else "Title must not exceed 200 characters"
                   | _ => "Title must be a non-empty string"
                   end))
  /\ (valid_id a = true -> valid_title b = true ->
      valid_description c = false ->
      r = Raise (ValueError
                   match c with
                   | VStr _ => "Description must not exceed 1000 characters"
                   | _ => "Description must be a string"
                   end))
  /\ (valid_id a = true -> valid_title b = true ->
      valid_description c = true -> isinstance_bool d = false ->
      r = Raise (ValueError "Completed status must be a boolean")).
Proof.
  intros r. subst r.
  pose proof (validate_id_cases a) as Va.
  pose proof (validate_title_cases b) as Vb.
  pose proof (validate_description_cases c) as Vc.
  pose proof (validate_completed_cases d) as Vd.
  split_and!.
  - intros Hv. pose proof (init_cases a b c d) as H. by rewrite Hv in H.
  - intros Ha. unfold Task.__init__, Task._validate_task_id.
    unfold valid_id in Ha. destruct a as [|x|n|s]; simpl in *; try done.
    + by destruct x.
    + apply Z.ltb_ge in Ha. apply Z.leb_le in Ha. by rewrite Ha.
  - intros Ha Hb. rewrite Ha in Va. unfold Task.__init__. rewrite Va. simpl.
    unfold Task._validate_title. destruct b as [|x|n|s]; simpl; try done.
    + by destruct x.
    + by destruct (n =? 0).
    + destruct s as [|ch s]; [done|]. simpl negb. cbv iota. simpl orb.
      cbv iota. rewrite strip_eqb.
      destruct (all_space (String ch s)) eqn:Hs; [done|].
      simpl in Hb. unfold title_ok in Hb. rewrite Hs in Hb. simpl in Hb.
      apply Z.leb_gt, Z.ltb_lt in Hb. by rewrite Hb.
  - intros Ha Hb Hc. rewrite Ha in Va. rewrite Hb in Vb.
    unfold Task.__init__. rewrite Va, Vb. simpl.
    unfold Task._validate_description. destruct c as [|x|n|s]; try done.
    simpl in Hc. unfold description_ok in Hc.
    apply Z.leb_gt, Z.ltb_lt in Hc. by rewrite Hc.
  - intros Ha Hb Hc Hd. rewrite Ha in Va. rewrite Hb in Vb. rewrite Hc in Vc.
    unfold Task.__init__. rewrite Va, Vb, Vc. simpl.
    unfold Task._validate_completed. by rewrite Hd.
Qed.

Lemma init_reports_first_invalid_field_witness :
  valid_id (VStr "invalid") = false
  /\ Task.__init__ (VStr "invalid") (VStr "") VNone VNone
     = Raise (ValueError "Task ID must be a positive integer").
Proof.
  split; [reflexivity|].
  destruct (init_reports_first_invalid_field (VStr "invalid") (VStr "") VNone
              VNone) as (_ & H & _).
  by apply H.
Defined.

(** X14: [to_dict] writes exactly the four keys ["id"], ["title"],
    ["description"] and ["completed"], and loses nothing: two Tasks with the
    same dict are the same in all four fields. *)
Theorem to_dict_keys_and_injective :
  (forall t k, is_Some (Task.to_dict t !! k) <-> k ∈ task_keys)
  /\ (forall t1 t2, Task.to_dict t1 = Task.to_dict t2 -> t1 = t2).
Proof.
  split.
  - intros t k. unfold Task.to_dict, task_keys.
    rewrite !lookup_insert, lookup_empty. rewrite !elem_of_cons, elem_of_nil.
    repeat case_decide; subst; rewrite ?is_Some_alt;
      intuition (auto 6; congruence).
  - intros [a1 b1 c1 d1] [a2 b2 c2 d2] E.
    pose proof (to_dict_lookups (Task.mk a1 b1 c1 d1)) as (H1 & H2 & H3 & H4).
    rewrite E in H1, H2, H3, H4.
    pose proof (to_dict_lookups (Task.mk a2 b2 c2 d2)) as (G1 & G2 & G3 & G4).
    simpl in *. congruence.
Qed.

(** X15: [from_dict] raises [KeyError] for a missing ["id"], whatever else the
    dict holds, and for a missing ["title"] when ["id"] is there; it ignores
    every key other than the four; and when it returns a Task, [to_dict] of
    that Task gives back every entry the dict had under the four keys, the
    Task being valid. *)
Theorem from_dict_errors_and_reencoding (data : gmap string value) :
  (data !! "id" = None -> Task.from_dict data = Raise (KeyError "id"))
  /\ (is_Some (data !! "id") -> data !! "title" = None ->
      Task.from_dict data = Raise (KeyError "title"))
  /\ (forall k v,
        k ∉ task_keys ->
        Task.from_dict (<[k := v]> data) = Task.from_dict data)
  /\ (forall t,
        Task.from_dict data = Ok t ->
        valid_task t = true
        /\ forall k v,
             k ∈ task_keys -> data !! k = Some v ->
             Task.to_dict t !! k = Some v).
Proof.
  split_and!.
  - intros H. unfold Task.from_dict, Task.getitem. by rewrite H.
  - intros [a Ha] H. unfold Task.from_dict, Task.getitem. by rewrite Ha, H.
  - intros k v Hk. unfold task_keys in Hk.
    rewrite !not_elem_of_cons in Hk. destruct Hk as (? & ? & ? & ? & _).
    unfold Task.from_dict, Task.getitem, Task.dict_get.
    by rewrite !lookup_insert_ne by done.
  - intros t H. unfold Task.from_dict, Task.getitem, Task.dict_get in H.
    destruct (data !! "id") as [a|] eqn:Ha; [|done].
    destruct (data !! "title") as [b|] eqn:Hb; [|done]. simpl in H.
    apply init_ok in H as [-> Hv]. split; [done|].
    intros k v Hk Hkv. unfold task_keys in Hk.
    rewrite !elem_of_cons, elem_of_nil in Hk.
    pose proof (to_dict_lookups
                  (Task.mk a b (default (VStr "") (data !! "description"))
                     (default (VBool false) (data !! "completed"))))
      as (H1 & H2 & H3 & H4). simpl in *.
    destruct Hk as [->|[->|[->|[->|[]]]]].
    + rewrite H1. congruence.
    + rewrite H2. congruence.
    + rewrite H3, Hkv. done.
    + rewrite H4, Hkv. done.
Qed.

Lemma from_dict_errors_and_reencoding_witness :
  (<["title" := VStr "Buy milk"]> (∅ : gmap string value)) !! "id" = None
  /\ Task.from_dict (<["title" := VStr "Buy milk"]> ∅) = Raise (KeyError "id").
Proof.
  split; [reflexivity|].
  destruct (from_dict_errors_and_reencoding
              (<["title" := VStr "Buy milk"]> ∅)) as (H & _).
  by apply H.
Defined.

(** ** How each call changes the registry *)

Section Changes.

Implicit Types (s : state) (l : loc) (t : Task.t) (v : value).

Lemma update_task_outcomes s task_id title description l t :
  wf s -> find s task_id = Some l -> task_at (heap s) l = Some t ->
  (exists msg,
     TodoService.update_task task_id title description s
     = (Raise (InvalidTaskInputError msg), s))
  \/ (exists msg,
        TodoService.update_task task_id title description s
        = (Raise (InvalidTaskInputError msg),
           set_obj s l (OTask (updated t title VNone))))
  \/ ((is_not_None title = true -> valid_title title = true)
      /\ (is_not_None description = true
          -> valid_description description = true)
      /\ TodoService.update_task task_id title description s
         = (Ok true, set_obj s l (OTask (updated t title description)))).
Proof.
  intros Hwf Hf Ht.
  destruct (is_not_None title && negb (valid_title title)) eqn:E1.
  { apply andb_prop in E1 as [Hn Hb%negb_true_iff]. left.
    destruct (update_task_bad_title s task_id title description l t)
      as [msg ->]; try done. by eexists. }
  assert (is_not_None title = true -> valid_title title = true) as Hv.
  { intros Hn. rewrite Hn in E1. simpl in E1. by apply negb_false_iff. }
  destruct (is_not_None description && negb (valid_description description))
    eqn:E2.
  { apply andb_prop in E2 as [Hn Hb%negb_true_iff]. right. left.
    destruct (update_task_bad_description s task_id title description l t)
      as [msg ->]; try done.
    rewrite (title_step_set s l t title Ht). by eexists. }
  assert (is_not_None description = true
          -> valid_description description = true) as Hd.
  { intros Hn. rewrite Hn in E2. simpl in E2. by apply negb_false_iff. }
  right. right. split; [done|]. split; [done|].
  rewrite (update_task_ok s task_id _ _ l t) by done.
  f_equal. rewrite (title_step_set s l t title Ht).
  destruct (is_not_None description) eqn:Hn.
  - by rewrite set_obj_twice, updated_after_title.
  - unfold updated. by rewrite Hn.
Qed.

Lemma edited_same s s' :
  wf s -> edited s s' ->
  items_of s' = items_of s /\ self s' = self s
  /\ forall l, id_at (heap s') l = id_at (heap s) l.
Proof.
  intros Hwf [->|(l & t & t' & Ht & Hid & ->)]; [done|].
  split; [by apply (items_set_task s l t)|]. split; [done|].
  intros l'. unfold id_at. simpl. rewrite task_at_insert_task.
  destruct (decide (l = l')) as [<-|]; [|done]. by rewrite Ht.
Qed.

Lemma update_task_edits s task_id title description :
  wf s -> edited s (snd (TodoService.update_task task_id title description s)).
Proof.
  intros Hwf. destruct (find s task_id) as [l|] eqn:Hf.
  2:{ rewrite update_task_missing by done. by left. }
  destruct (find_Some s task_id l Hwf Hf) as (_ & t & Ht & _).
  destruct (update_task_outcomes s task_id title description l t Hwf Hf Ht)
    as [[msg ->]|[[msg ->]|(_ & _ & ->)]]; simpl.
  - by left.
  - right. by exists l, t, (updated t title VNone).
  - right. by exists l, t, (updated t title description).
Qed.

Lemma update_task_status_edits s task_id completed :
  wf s -> edited s (snd (TodoService.update_task_status task_id completed s)).
Proof.
  intros Hwf. destruct (find s task_id) as [l|] eqn:Hf.
  2:{ rewrite update_task_status_missing by done. by left. }
  destruct (find_Some s task_id l Hwf Hf) as (_ & t & Ht & _).
  destruct (isinstance_bool completed) eqn:Hv.
  - rewrite (update_task_status_ok s task_id completed l t) by done.
    right. by exists l, t, (with_completed t completed).
  - rewrite (update_task_status_bad s task_id completed l) by done.
    by left.
Qed.

Lemma call_change s o :
  wf s ->
  (forall l, l ∈ items_of s ->
     id_at (heap (snd (call o s))) l = id_at (heap s) l)
  /\ match o, fst (call o s) with
     | Add _ _, Ok (ATask l) =>
         items_of (snd (call o s)) = items_of s ++ [l]
         /\ id_at (heap (snd (call o s))) l = VInt (_next_id (self s))
         /\ _next_id (self (snd (call o s))) = _next_id (self s) + 1
     | Delete task_id, Ok (ABool true) =>
         exists pre l post,
           items_of s = pre ++ l :: post
           /\ items_of (snd (call o s)) = pre ++ post
           /\ _next_id (self (snd (call o s))) = _next_id (self s)
           /\ find s task_id = Some l
     | _, _ =>
         items_of (snd (call o s)) = items_of s
         /\ _next_id (self (snd (call o s))) = _next_id (self s)
     end.
Proof.
  intros Hwf. destruct o as [title description| |task_id
    |task_id title description|task_id completed|task_id|];
    unfold call, bind, ret.
  - destruct (valid_title title && valid_description description) eqn:E.
    + apply andb_prop in E as [Ht Hd].
      rewrite (add_task_ok s title description) by done. cbn [fst snd].
      split_and!.
      * intros l Hl. unfold id_at. rewrite task_at_added by done.
        rewrite decide_False; [done|]. intros <-.
        destruct (wf_item s _ Hwf Hl) as (t & Ht' & _).
        rewrite fresh_task_at in Ht'. done.
      * apply items_added.
      * unfold id_at. rewrite task_at_added by done. by rewrite decide_True.
      * done.
    + destruct (add_task_rejected s title description E) as (e & -> & _).
      by simpl.
  - rewrite (get_all_tasks_spec s Hwf). cbn [fst snd]. split_and!; [| |done].
    + intros l _. unfold id_at. simpl.
      rewrite task_at_insert_list_keep; [done|apply fresh_task_at].
    + unfold items_of, set_obj, list_at. simpl.
      rewrite lookup_insert_ne; [done|by apply fresh_not_tasks].
  - rewrite (get_task_by_id_spec s task_id Hwf). by simpl.
  - pose proof (update_task_edits s task_id title description Hwf) as He.
    destruct (edited_same _ _ Hwf He) as (Hi & Hs & Hid).
    destruct (TodoService.update_task _ _ _ s) as [[b| |] s']; cbn [fst snd] in *;
      by rewrite Hs.
  - pose proof (update_task_status_edits s task_id completed Hwf) as He.
    destruct (edited_same _ _ Hwf He) as (Hi & Hs & Hid).
    destruct (TodoService.update_task_status _ _ s) as [[b| |] s'];
      cbn [fst snd] in *; by rewrite Hs.
  - destruct (find s task_id) as [l|] eqn:Hf.
    2:{ rewrite delete_task_missing by done. by simpl. }
    destruct (delete_task_ok s task_id l Hwf Hf) as (pre & post & Hi & _ & ->).
    cbn [fst snd]. split.
    + intros l' _. unfold id_at. simpl.
      rewrite task_at_insert_list_keep; [done|by apply wf_tasks_no_task].
    + exists pre, l, post. split_and!; [done| |done|done].
      unfold items_of, set_obj, list_at. simpl. by rewrite lookup_insert_eq.
  - by simpl.
Qed.

Lemma call_list_change s o : wf s -> list_change s (snd (call o s)).
Proof.
  intros Hwf. destruct (call_change s o Hwf) as [_ H].
  destruct o; destruct (call _ s) as [[[l| |r|b|n]| |] s']; cbn [fst snd] in *;
    try (by apply kept; destruct H).
  - destruct H as (H1 & H2 & H3). by eapply appended.
  - destruct b; [|by apply kept; destruct H].
    destruct H as (pre & l & post & H1 & H2 & H3 & _). by eapply removed.
Qed.

Lemma lookup_id_ext h h' task_id items :
  (forall l, l ∈ items -> id_at h' l = id_at h l) ->
  lookup_id h' task_id items = lookup_id h task_id items.
Proof.
  induction items as [|x items IH]; simpl; [done|]. intros H.
  rewrite (H x) by apply list_elem_of_here.
  rewrite IH; [done|]. intros l Hl. apply H. by apply list_elem_of_further.
Qed.

Lemma lookup_id_app h task_id a b :
  lookup_id h task_id (a ++ b)
  = match lookup_id h task_id a with
    | Some l => Some l
    | None => lookup_id h task_id b
    end.
Proof.
  induction a as [|x a IH]; simpl; [done|].
  by destruct (py_eq (id_at h x) task_id).
Qed.

End Changes.

(** ** Adding and looking up *)

Lemma add_task_ok_inv s title description l s' :
  TodoService.add_task title description s = (Ok l, s') ->
  valid_title title = true /\ valid_description description = true.
Proof.
  intros H. destruct (valid_title title && valid_description description)
    eqn:E; [by apply andb_prop in E|].
  destruct (add_task_rejected s title description E) as (e & He & _).
  congruence.
Qed.

(** X1: [add_task] returns a Task exactly when the title and the description
    are valid.  The Task is a new object holding the old counter as id, the
    title and description as given, and [completed = False]; it is appended
    at the end of the list, the counter goes up by one, and no other Task
    changes. *)
Theorem add_task_success s title description (Hwf : wf s) :
  (valid_title title = true -> valid_description description = true ->
   exists l s',
     TodoService.add_task title description s = (Ok l, s')
     /\ heap s !! l = None
     /\ task_at (heap s') l
        = Some (Task.mk (VInt (_next_id (self s))) title description
                  (VBool false))
     /\ items_of s' = items_of s ++ [l]
     /\ self s' = mkService (_tasks (self s)) (_next_id (self s) + 1)
     /\ (forall l', l' <> l -> task_at (heap s') l' = task_at (heap s) l')
     /\ wf s')
  /\ (forall l s',
        TodoService.add_task title description s = (Ok l, s') ->
        valid_title title = true /\ valid_description description = true).
Proof.
  split; [|apply add_task_ok_inv].
  intros Ht Hd. exists (fresh (dom (heap s))), (added s title description).
  split_and!.
  - by apply add_task_ok.
  - apply not_elem_of_dom, is_fresh.
  - rewrite task_at_added by done. by rewrite decide_True.
  - apply items_added.
  - done.
  - intros l' Hl'. rewrite task_at_added by done. by rewrite decide_False.
  - by apply wf_added.
Qed.

Lemma add_task_success_witness :
  wf demo
  /\ exists l s',
       TodoService.add_task (VStr "Walk") (VStr "the dog") demo = (Ok l, s')
       /\ task_at (heap s') l
          = Some (Task.mk (VInt 4) (VStr "Walk") (VStr "the dog")
                    (VBool false)).
Proof.
  split; [apply wf_demo|].
  destruct (add_task_success demo (VStr "Walk") (VStr "the dog") wf_demo)
    as [H _].
  destruct (H eq_refl eq_refl) as (l & s' & E & _ & Ht & _).
  by exists l, s'.
Defined.

(** X2: [get_task_by_id] never changes anything and never raises; it returns a
    task exactly when that task is in the list with an id equal to the one
    asked for, and there is at most one such task; it returns [None] exactly
    when the list has none. *)
Theorem get_task_by_id_finds_the_task s task_id (Hwf : wf s) :
  exists r,
    TodoService.get_task_by_id task_id s = (Ok r, s)
    /\ (forall l, r = Some l <-> has_id s l task_id)
    /\ (r = None <-> no_task s task_id).
Proof.
  exists (find s task_id). split; [by apply get_task_by_id_spec|]. split.
  - intros l. by apply find_has_id.
  - apply find_None.
Qed.

Lemma get_task_by_id_finds_the_task_witness :
  wf demo
  /\ TodoService.get_task_by_id (VInt 3) demo = (Ok (Some 4%positive), demo)
  /\ has_id demo 4%positive (VInt 3).
Proof.
  split; [apply wf_demo|].
  destruct (get_task_by_id_finds_the_task demo (VInt 3) wf_demo)
    as (r & E & H & _).
  assert (r = Some 4%positive) as ->.
  { assert (fst (TodoService.get_task_by_id (VInt 3) demo) = Ok r) as Hr
      by (by rewrite E).
    vm_compute in Hr. congruence. }
  split; [exact E|]. by apply H.
Defined.

Lemma find_added s title description task_id :
  wf s ->
  find (added s title description) task_id
  = match find s task_id with
    | Some l => Some l
    | None => if py_eq (VInt (_next_id (self s))) task_id
              then Some (fresh (dom (heap s))) else None
    end.
Proof.
  intros Hwf. unfold find. rewrite items_added, lookup_id_app.
  rewrite (lookup_id_ext (heap s)).
  2:{ intros l Hl. unfold id_at. rewrite task_at_added by done.
      rewrite decide_False; [done|]. intros <-.
      destruct (wf_item s _ Hwf Hl) as (t & Ht' & _).
      rewrite fresh_task_at in Ht'. done. }
  destruct (lookup_id (heap s) task_id (items_of s)); [done|].
  cbn [lookup_id]. unfold id_at. rewrite task_at_added by done.
  by rewrite decide_True.
Qed.

(** X3: After a successful add, looking up the id it handed out returns the new
    task; every id that was in the registry still resolves to the task it
    resolved to; and every other id still resolves to nothing. *)
Theorem add_then_get s title description l s' (Hwf : wf s)
  (Hadd : TodoService.add_task title description s = (Ok l, s')) :
  TodoService.get_task_by_id (VInt (_next_id (self s))) s' = (Ok (Some l), s')
  /\ (forall task_id l0,
        has_id s l0 task_id ->
        TodoService.get_task_by_id task_id s' = (Ok (Some l0), s'))
  /\ (forall task_id,
        no_task s task_id ->
        py_eq (VInt (_next_id (self s))) task_id = false ->
        TodoService.get_task_by_id task_id s' = (Ok None, s')).
Proof.
  destruct (add_task_ok_inv _ _ _ _ _ Hadd) as [Ht Hd].
  rewrite (add_task_ok s title description Hwf Ht Hd) in Hadd.
  injection Hadd as <- <-.
  pose proof (wf_added s title description Hwf Ht Hd) as Hwf'.
  split_and!.
  - rewrite get_task_by_id_spec, find_added by done.
    assert (find s (VInt (_next_id (self s))) = None) as ->.
    { apply find_None, unassigned_no_task; [done|lia]. }
    simpl. by rewrite Z.eqb_refl.
  - intros task_id l0 Hid%find_has_id; [|done].
    rewrite get_task_by_id_spec, find_added by done. by rewrite Hid.
  - intros task_id Hno%find_None Hne.
    rewrite get_task_by_id_spec, find_added by done. by rewrite Hno, Hne.
Qed.

Lemma add_then_get_witness :
  wf demo
  /\ exists s',
       TodoService.add_task (VStr "Walk") (VStr "") demo = (Ok 5%positive, s')
       /\ TodoService.get_task_by_id (VInt 4) s' = (Ok (Some 5%positive), s').
Proof.
  split; [apply wf_demo|].
  exists (snd (TodoService.add_task (VStr "Walk") (VStr "") demo)).
  assert (TodoService.add_task (VStr "Walk") (VStr "") demo
          = (Ok 5%positive,
             snd (TodoService.add_task (VStr "Walk") (VStr "") demo))) as E
    by (vm_compute; reflexivity).
  split; [exact E|].
  destruct (add_then_get demo (VStr "Walk") (VStr "") 5%positive _ wf_demo E)
    as [H _].
  exact H.
Defined.

(** ** The list across calls *)

(** X4: Every call leaves the list as it is, or appends one new item carrying
    the old counter as id, or takes one item out; it never reorders or
    replaces items, and never changes the id of a listed task. *)
Theorem calls_keep_list_order s o (Hwf : wf s) :
  list_change s (snd (call o s))
  /\ (forall l, l ∈ items_of s ->
        id_at (heap (snd (call o s))) l = id_at (heap s) l).
Proof.
  split; [by apply call_list_change|]. by apply call_change.
Qed.

Lemma calls_keep_list_order_witness :
  wf demo /\ list_change demo (snd (call (Delete (VInt 2)) demo)).
Proof.
  split; [apply wf_demo|].
  by destruct (calls_keep_list_order demo (Delete (VInt 2)) wf_demo).
Defined.

Lemma ids_of_kept s s' :
  items_of s' = items_of s ->
  (forall l, l ∈ items_of s -> id_at (heap s') l = id_at (heap s) l) ->
  ids_of s' = ids_of s.
Proof.
  intros Hi Hid. unfold ids_of. rewrite Hi. apply map_ext_in.
  intros l Hl%list_elem_of_In. by apply Hid.
Qed.

Lemma call_increasing s o :
  wf s -> increasing_ids s -> increasing_ids (snd (call o s)).
Proof.
  intros Hwf (ids & Hids & Hsort & Hb).
  destruct (call_change s o Hwf) as [Hid H].
  assert (items_of (snd (call o s)) = items_of s
          /\ _next_id (self (snd (call o s))) = _next_id (self s) ->
          increasing_ids (snd (call o s))) as Hkept.
  { intros [Hi Hn]. exists ids. rewrite (ids_of_kept s) by done.
    by rewrite Hn. }
  destruct o; destruct (call _ s) as [[[l| |r|b|n]| |] s']; cbn [fst snd] in *;
    try (by apply Hkept).
  - destruct H as (Hi & Hl & Hn). exists (ids ++ [_next_id (self s)]).
    split_and!.
    + unfold ids_of. rewrite Hi, !map_app. simpl. rewrite Hl. f_equal.
      rewrite <- Hids. apply map_ext_in. intros x Hx%list_elem_of_In.
      by apply Hid.
    + apply StronglySorted_app. split_and!; [|done|repeat constructor].
      intros x y Hx ->%list_elem_of_singleton.
      rewrite Forall_forall in Hb. apply (Hb x Hx).
    + rewrite Hn. apply Forall_app. split.
      * eapply Forall_impl; [exact Hb|]. simpl. intros; lia.
      * repeat constructor; pose proof (wf_next s Hwf); lia.
  - destruct b; [|by apply Hkept].
    destruct H as (pre & l & post & Hi & Hi' & Hn & _).
    unfold ids_of in Hids. rewrite Hi, map_app in Hids. simpl in Hids.
    symmetry in Hids. apply fmap_app_inv in Hids as (ids1 & ids2 & H1 & H2 & ->).
    destruct ids2 as [|i ids2]; [done|]. simpl in H2. injection H2 as Hi2 H2.
    exists (ids1 ++ ids2). split_and!.
    + unfold ids_of. rewrite Hi', !map_app. f_equal.
      * transitivity (map (id_at (heap s)) pre); [|exact H1].
        apply map_ext_in; intros x Hx%list_elem_of_In; apply Hid.
        rewrite Hi, elem_of_app; auto.
      * transitivity (map (id_at (heap s)) post); [|exact H2].
        apply map_ext_in; intros x Hx%list_elem_of_In; apply Hid.
        rewrite Hi, elem_of_app, elem_of_cons; auto.
    + apply StronglySorted_app in Hsort as (H12 & S1 & S2).
      apply StronglySorted_cons in S2 as [_ S2].
      apply StronglySorted_app. split_and!; [|done|done].
      intros x y Hx Hy. apply H12; [done|]. by apply list_elem_of_further.
    + rewrite Hn. apply Forall_app in Hb as [B1 B2].
      apply Forall_cons_1 in B2 as [_ B2]. by apply Forall_app.
Qed.

(** X5: In every state reached from a new registry the listed ids are integers
    in strictly increasing order, each at least 1 and below the counter: the
    list is always sorted by id. *)
Theorem listed_ids_increase (ops : list op) :
  increasing_ids (exec ops init_state).
Proof.
  assert (forall s, wf s -> increasing_ids s -> increasing_ids (exec ops s))
    as H.
  { induction ops as [|o ops IH]; simpl; [done|]. intros s Hwf Hinc.
    apply IH; [by apply call_effect|by apply call_increasing]. }
  apply H; [apply wf_init_state|]. exists []. split_and!; [done|constructor|].
  constructor.
Qed.

Lemma length_change s o :
  wf s ->
  length (items_of (snd (call o s)))
  = match o, fst (call o s) with
    | Add _ _, Ok (ATask _) => S (length (items_of s))
    | Delete _, Ok (ABool true) => pred (length (items_of s))
    | _, _ => length (items_of s)
    end
  /\ match o, fst (call o s) with
     | Delete _, Ok (ABool true) => (0 < length (items_of s))%nat
     | _, _ => True
     end.
Proof.
  intros Hwf. destruct (call_change s o Hwf) as [_ H].
  destruct o; destruct (call _ s) as [[[l| |r|b|n]| |] s']; cbn [fst snd] in *;
    try (by destruct H as [-> _]).
  - destruct H as (-> & _). rewrite length_app. simpl. split; [lia|done].
  - destruct b; [|by destruct H as [-> _]].
    destruct H as (pre & l & post & -> & -> & _).
    rewrite !length_app. simpl. split; lia.
Qed.

(** X6: Counting along any sequence of calls on a new registry: the number of
    tasks in the list is the number of adds that returned a task minus the
    number of deletes that returned [True], and the counter is one more than
    the number of those adds. *)
Theorem task_count (ops : list op) :
  (length (items_of (exec ops init_state)) + removals ops init_state
   = length (assigned ops init_state))%nat
  /\ _next_id (self (exec ops init_state))
     = 1 + Z.of_nat (length (assigned ops init_state)).
Proof.
  split; [|by destruct (assigned_spec ops init_state wf_init_state)].
  assert (forall s, wf s ->
            (length (items_of (exec ops s)) + removals ops s
             = length (items_of s) + length (assigned ops s))%nat) as H.
  { induction ops as [|o ops IH]; intros s Hwf; [simpl; lia|].
    destruct (call_effect s o Hwf) as (Hwf' & _ & _).
    destruct (length_change s o Hwf) as [Hl Hpos].
    specialize (IH _ Hwf'). cbn [exec removals assigned].
    destruct o; destruct (call _ s) as [[[l| |r|b|n]| |] s'];
      cbn [fst snd length] in *; try lia.
    destruct b; lia. }
  rewrite (H init_state wf_init_state). reflexivity.
Qed.

(** X7: A task stays in the registry, under the same id, across every call
    except a delete of that very id. *)
Theorem tasks_stay_until_deleted s l task_id o (Hwf : wf s)
  (Hid : has_id s l task_id) :
  has_id (snd (call o s)) l task_id
  \/ exists d, o = Delete d /\ has_id s l d
               /\ fst (call o s) = Ok (ABool true).
Proof.
  destruct (call_change s o Hwf) as [Hsame H].
  destruct Hid as [Hl He].
  assert (items_of (snd (call o s)) = items_of s ->
          has_id (snd (call o s)) l task_id) as Hkept.
  { intros Hi. split; [by rewrite Hi|]. by rewrite Hsame. }
  destruct o as [title description| |x|x title description|x completed|d|];
    destruct (call _ s) as [[[l0| |r|b|n]| |] s'] eqn:E; cbn [fst snd] in *;
    try (left; apply Hkept; by destruct H).
  - left. destruct H as (Hi & _). split; [|by rewrite Hsame].
    rewrite Hi. apply elem_of_app. by left.
  - destruct b; [|left; apply Hkept; by destruct H].
    destruct H as (pre & l1 & post & Hi & Hi' & _ & Hf).
    destruct (decide (l = l1)) as [->|Hne].
    + right. exists d. split; [done|]. split; [|done].
      by apply find_has_id.
    + left. split; [|by rewrite Hsame].
      rewrite Hi'. rewrite Hi in Hl.
      rewrite elem_of_app, elem_of_cons in Hl. rewrite elem_of_app.
      destruct Hl as [?|[?|?]]; auto. done.
Qed.

Lemma tasks_stay_until_deleted_witness :
  wf demo /\ has_id demo 4%positive (VInt 3)
  /\ has_id (snd (call (Delete (VInt 2)) demo)) 4%positive (VInt 3).
Proof.
  assert (has_id demo 4%positive (VInt 3)) as Hid.
  { split; [in_items|reflexivity]. }
  split; [apply wf_demo|]. split; [exact Hid|].
  destruct (tasks_stay_until_deleted demo 4%positive (VInt 3)
              (Delete (VInt 2)) wf_demo Hid) as [H|(d & Hd & [_ H] & _)].
  - exact H.
  - injection Hd as <-. vm_compute in H. discriminate.
Defined.

(** ** Exceptions that reach the caller *)

Lemma add_task_title_not_a_string_helper s title description :
  truthy title = true -> isinstance_str title = false ->
  forall e, TodoService.add_task title description s = (Raise e, s) ->
  e = AttributeError.
Proof.
  intros Ht Hs e. unfold TodoService.add_task, bind. rewrite Ht.
  destruct title; try done; simpl; congruence.
Qed.

(** X8: Whatever the description and the state, [add_task] with a title that is
    falsy ([None], [False], [0], the empty string) raises
    [InvalidTaskInputError] with the empty-title message, and with a title
    that is truthy but not a string ([True], a nonzero integer) it lets the
    [AttributeError] of [title.strip()] through, unwrapped; in both cases
    nothing changes. *)
Theorem add_task_title_not_a_string s title description :
  (truthy title = false ->
   TodoService.add_task title description s
   = (Raise (InvalidTaskInputError "Title cannot be empty or whitespace-only"),
      s))
  /\ (truthy title = true -> isinstance_str title = false ->
      TodoService.add_task title description s = (Raise AttributeError, s)).
Proof.
  split.
  - intros Ht. unfold TodoService.add_task, bind. by rewrite Ht.
  - intros Ht Hs. unfold TodoService.add_task, bind. rewrite Ht.
    by destruct title.
Qed.

Lemma add_task_title_not_a_string_witness :
  TodoService.add_task (VInt 5) (VStr "") demo = (Raise AttributeError, demo).
Proof.
  destruct (add_task_title_not_a_string demo (VInt 5) (VStr "")) as [_ H].
  by apply H.
Defined.

(** X9: On a well-formed registry, listing, looking up, deleting and reading the
    counter never raise; [update_task] and [update_task_status] raise
    nothing but [InvalidTaskInputError]; and [add_task] raises
    [InvalidTaskInputError], or [AttributeError] when the title is truthy
    and not a string.  After any raise the invariant still holds. *)
Theorem exceptions_that_escape s o e s' (Hwf : wf s)
  (Hraise : call o s = (Raise e, s')) :
  wf s'
  /\ match o with
     | Add title _ =>
         (exists msg, e = InvalidTaskInputError msg)
         \/ (e = AttributeError /\ truthy title = true
             /\ isinstance_str title = false)
     | Update _ _ _ | SetCompleted _ _ =>
         exists msg, e = InvalidTaskInputError msg
     | _ => False
     end.
Proof.
  split.
  { destruct (call_effect s o Hwf) as [H _]. by rewrite Hraise in H. }
  destruct o as [title description| |task_id
    |task_id title description|task_id completed|task_id|];
    unfold call, bind, ret in Hraise.
  - destruct (valid_title title && valid_description description) eqn:E.
    { apply andb_prop in E as [Ht Hd].
      rewrite (add_task_ok s title description) in Hraise by done. done. }
    destruct (add_task_rejected s title description E) as (e' & He & Hm).
    rewrite He in Hraise. injection Hraise as <- <-.
    destruct (truthy title) eqn:Ht; [|left; by apply Hm; right].
    destruct (isinstance_str title) eqn:Hs; [left; by apply Hm; left|].
    right. by rewrite (add_task_title_not_a_string_helper s title description
                         Ht Hs e' He).
  - by rewrite (get_all_tasks_spec s Hwf) in Hraise.
  - by rewrite (get_task_by_id_spec s task_id Hwf) in Hraise.
  - destruct (find s task_id) as [l|] eqn:Hf.
    2:{ by rewrite update_task_missing in Hraise. }
    destruct (find_Some s task_id l Hwf Hf) as (_ & t & Ht & _).
    destruct (update_task_outcomes s task_id title description l t Hwf Hf Ht)
      as [[msg E]|[[msg E]|(_ & _ & E)]]; rewrite E in Hraise;
      [injection Hraise as <- _; by eexists..|done].
  - destruct (find s task_id) as [l|] eqn:Hf.
    2:{ by rewrite update_task_status_missing in Hraise. }
    destruct (find_Some s task_id l Hwf Hf) as (_ & t & Ht & _).
    destruct (isinstance_bool completed) eqn:Hv.
    + by rewrite (update_task_status_ok s task_id completed l t) in Hraise.
    + rewrite (update_task_status_bad s task_id completed l) in Hraise by done.
      injection Hraise as <- _. by eexists.
  - destruct (delete_task_cases s task_id Hwf) as (r & s0 & E & Hr & _).
    destruct (find s task_id) as [l|] eqn:Hf.
    + destruct (delete_task_ok s task_id l Hwf Hf) as (? & ? & _ & _ & E').
      by rewrite E' in Hraise.
    + by rewrite delete_task_missing in Hraise.
  - done.
Qed.

Lemma exceptions_that_escape_witness :
  wf demo
  /\ exists e s',
       call (SetCompleted (VInt 2) (VStr "yes")) demo = (Raise e, s')
       /\ wf s' /\ exists msg, e = InvalidTaskInputError msg.
Proof.
  split; [apply wf_demo|].
  assert (call (SetCompleted (VInt 2) (VStr "yes")) demo
          = (Raise (InvalidTaskInputError "Completion status must be a boolean"),
             demo)) as E by (vm_compute; reflexivity).
  eexists _, _. split; [exact E|].
  exact (exceptions_that_escape demo _ _ _ wf_demo E).
Defined.

(** ** Updates in sequence *)

Lemma find_edited s s' task_id :
  wf s -> edited s s' -> find s' task_id = find s task_id.
Proof.
  intros Hwf He. destruct (edited_same s s' Hwf He) as (Hi & _ & Hid).
  unfold find. rewrite Hi. apply lookup_id_ext. intros l _. apply Hid.
Qed.

Lemma updated_twice t title description title' description' :
  updated (updated t title description) title' description'
  = updated t (if is_not_None title' then title' else title)
      (if is_not_None description' then description' else description).
Proof.
  unfold updated. by destruct title', description'.
Qed.

(** X10: On a task that exists, updating the title and then the description in
    two calls leaves the registry exactly as updating both in one call does,
    when both values are valid; and repeating a successful update changes
    nothing further. *)
Theorem update_in_two_steps s task_id l title description (Hwf : wf s)
  (Hid : has_id s l task_id)
  (Ht : valid_title title = true)
  (Hd : valid_description description = true) :
  let one := TodoService.update_task task_id title description s in
  let s1 := snd (TodoService.update_task task_id title VNone s) in
  fst one = Ok true
  /\ TodoService.update_task task_id VNone description s1 = one
  /\ TodoService.update_task task_id title description (snd one) = one.
Proof.
  intros one s1. subst one s1.
  pose proof Hid as Hf. apply find_has_id in Hf; [|done].
  destruct (find_Some s task_id l Hwf Hf) as (_ & t & Htask & _).
  assert (is_not_None title = true) as Hnt by (by destruct title).
  assert (is_not_None description = true) as Hnd by (by destruct description).
  assert (forall title' description' (s0 : state) t0,
            wf s0 -> find s0 task_id = Some l ->
            task_at (heap s0) l = Some t0 ->
            (is_not_None title' = true -> valid_title title' = true) ->
            (is_not_None description' = true ->
             valid_description description' = true) ->
            TodoService.update_task task_id title' description' s0
            = (Ok true, set_obj s0 l (OTask (updated t0 title' description'))))
    as Hupd.
  { intros title' description' s0 t0 Hwf0 Hf0 Ht0 Hv1 Hv2.
    destruct (update_task_outcomes s0 task_id title' description' l t0
                Hwf0 Hf0 Ht0) as [[msg E]|[[msg E]|(_ & _ & E)]]; [| |done].
    - destruct (is_not_None title') eqn:E1.
      + destruct (update_task_bad_title s0 task_id title' description' l t0)
          as [msg' E']; try done.
        * destruct (valid_title title') eqn:Hv; [|done].
          rewrite (update_task_ok s0 task_id title' description' l t0) in E
            by done. done.
        * rewrite (update_task_ok s0 task_id title' description' l t0) in E
            by auto. done.
      + rewrite (update_task_ok s0 task_id title' description' l t0) in E
          by (auto; congruence). done.
    - rewrite (update_task_ok s0 task_id title' description' l t0) in E
        by auto. done. }
  assert (forall t', Task._id t' = Task._id t ->
            valid_task t' = true ->
            wf (set_obj s l (OTask t'))
            /\ find (set_obj s l (OTask t')) task_id = Some l
            /\ task_at (heap (set_obj s l (OTask t'))) l = Some t') as Hnext.
  { intros t' Hid' Hv'. split_and!.
    - by apply (wf_set_task s l t).
    - rewrite (find_edited s); [done|done|]. right. by exists l, t, t'.
    - apply task_at_set_obj. }
  pose proof (wf_valid s Hwf l t Htask) as Hvt.
  rewrite (Hupd title description s t) by done. cbn [fst snd].
  split; [done|]. split.
  - rewrite (Hupd title VNone s t) by done. cbn [snd].
    destruct (Hnext (updated t title VNone)) as (W & F & T); [done| |].
    { unfold updated. rewrite Hnt. simpl. by apply valid_with_title. }
    rewrite (Hupd VNone description _ _ W F T) by done.
    rewrite set_obj_twice, updated_twice. simpl. by rewrite Hnd.
  - destruct (Hnext (updated t title description)) as (W & F & T); [done| |].
    { unfold updated. rewrite Hnt, Hnd.
      apply (valid_with_description (with_title t title)); [|done].
      by apply valid_with_title. }
    rewrite (Hupd title description _ _ W F T) by done.
    rewrite set_obj_twice, updated_twice. by rewrite Hnt, Hnd.
Qed.

Lemma update_in_two_steps_witness :
  wf demo /\ has_id demo 3%positive (VInt 2)
  /\ TodoService.update_task (VInt 2) VNone (VStr "kitchen")
       (snd (TodoService.update_task (VInt 2) (VStr "Tidy") VNone demo))
     = TodoService.update_task (VInt 2) (VStr "Tidy") (VStr "kitchen") demo.
Proof.
  assert (has_id demo 3%positive (VInt 2)) as Hid.
  { split; [in_items|reflexivity]. }
  split; [apply wf_demo|]. split; [exact Hid|].
  destruct (update_in_two_steps demo (VInt 2) 3%positive (VStr "Tidy")
              (VStr "kitchen") wf_demo Hid eq_refl eq_refl) as (_ & H & _).
  exact H.
Defined.

(** X11: On a task that exists, of two status updates in a row only the second
    counts, and setting the status a task already has changes nothing. *)
Theorem last_status_wins s task_id l t b1 b2 (Hwf : wf s)
  (Hid : has_id s l task_id) (Htask : task_at (heap s) l = Some t) :
  TodoService.update_task_status task_id (VBool b2)
    (snd (TodoService.update_task_status task_id (VBool b1) s))
  = TodoService.update_task_status task_id (VBool b2) s
  /\ (Task._completed t = VBool b1 ->
      TodoService.update_task_status task_id (VBool b1) s = (Ok true, s)).
Proof.
  pose proof Hid as Hf. apply find_has_id in Hf; [|done].
  rewrite !(update_task_status_ok s task_id _ l t) by done. cbn [snd].
  split.
  - rewrite (update_task_status_ok _ task_id (VBool b2) l
               (with_completed t (VBool b1))).
    + by rewrite set_obj_twice.
    + apply (wf_set_task s l t); [done|done|done|].
      apply valid_with_completed; [by apply (wf_valid s Hwf l)|done].
    + rewrite (find_edited s); [done|done|]. right.
      by exists l, t, (with_completed t (VBool b1)).
    + apply task_at_set_obj.
    + done.
  - intros Hc. f_equal. rewrite <- (set_obj_same s l t Htask) at 2.
    destruct t as [a b c d]. simpl in Hc. by subst d.
Qed.

Lemma last_status_wins_witness :
  wf demo /\ has_id demo 3%positive (VInt 2)
  /\ TodoService.update_task_status (VInt 2) (VBool false) demo
     = (Ok true, demo).
Proof.
  assert (has_id demo 3%positive (VInt 2)) as Hid.
  { split; [in_items|reflexivity]. }
  split; [apply wf_demo|]. split; [exact Hid|].
  destruct (last_status_wins demo (VInt 2) 3%positive
              (Task.mk (VInt 2) (VStr "Clean") (VStr "") (VBool false))
              false true wf_demo Hid eq_refl) as [_ H].
  by apply H.
Defined.

(** ** Assignments by a caller holding a Task *)




(** ** The add-task dialogue *)

Lemma init_reports_first_bad_title a s c d :
  valid_id a = true -> all_space s = false -> 200 < len s ->
  Task.__init__ a (VStr s) c d
  = Raise (ValueError "Title must not exceed 200 characters").
Proof.
  intros Ha Hs Hl. pose proof (validate_id_cases a) as Va. rewrite Ha in Va.
  unfold Task.__init__. rewrite Va. simpl. unfold Task._validate_title.
  destruct s as [|ch s]; [done|]. simpl negb. simpl orb. cbv iota.
  rewrite strip_eqb, Hs. apply Z.ltb_lt in Hl. by rewrite Hl.
Qed.

Lemma init_reports_long_description a b s d :
  valid_id a = true -> valid_title b = true -> 1000 < len s ->
  Task.__init__ a b (VStr s) d
  = Raise (ValueError "Description must not exceed 1000 characters").
Proof.
  intros Ha Hb Hl. pose proof (validate_id_cases a) as Va. rewrite Ha in Va.
  pose proof (validate_title_cases b) as Vb. rewrite Hb in Vb.
  unfold Task.__init__. rewrite Va, Vb. simpl.
  apply Z.ltb_lt in Hl. by rewrite Hl.
Qed.

Lemma add_task_reports s ts d msg :
  all_space ts = false ->
  Task.__init__ (VInt (_next_id (self s))) (VStr ts) d (VBool false)
  = Raise (ValueError msg) ->
  TodoService.add_task (VStr ts) d s
  = (Raise (InvalidTaskInputError ("Invalid task input: " +:+ msg)), s).
Proof.
  intros Hs Hi.
  unfold TodoService.add_task, bind, try_except, lift, ret, get_self, raise,
    call_strip.
  assert (truthy (VStr ts) = true) as ->.
  { simpl. by destruct ts. }
  cbn [negb]. by rewrite strip_eqb, Hs, Hi.
Qed.

Section DialogueFacts.

Variable exn_text : exn -> string.

Lemma is_blank_str s :
  Validation.is_empty_or_whitespace_only (VStr s) = all_space s.
Proof.
  unfold Validation.is_empty_or_whitespace_only. simpl.
  rewrite strip_eqb. by destruct (String.eqb_spec s "") as [->|].
Qed.

Lemma all_space_strip s : all_space (strip s) = all_space s.
Proof.
  rewrite <- (strip_eqb (strip s)), strip_idemp. apply strip_eqb.
Qed.

Lemma valid_title_stripped s :
  valid_title (VStr (strip s))
  = negb (all_space s) && (len (strip s) <=? 200).
Proof.
  simpl. unfold title_ok. rewrite all_space_strip.
  destruct (String.eqb_spec (strip s) "") as [E|E]; simpl; [|done].
  apply strip_empty in E. by rewrite E.
Qed.

(** X19: The dialogue asks for the title first.  At the end of the input it ends
    with [EOFError]; on a title that is empty or all whitespace it prints the
    error line and returns without asking for a description; in both cases
    the service is not called and keeps its state.  On any other title it
    asks for the description, and at the end of the input ends with
    [EOFError], again with the service untouched. *)
Theorem dialogue_without_add (c : console) :
  let header := Printed (newline +:+ "--- Add New Task ---") in
  let ask_title := Prompted "Enter task title: " in
  let ask_description := Prompted "Enter task description (optional): " in
  (stdin c = [] ->
   TodoCLI.add_task exn_text c
   = (EOFError,
      mkConsole (service_state c) [] (stdout c ++ [header; ask_title])))
  /\ (forall title_input rest,
        stdin c = title_input :: rest -> all_space title_input = true ->
        TodoCLI.add_task exn_text c
        = (Returns,
           mkConsole (service_state c) rest
             (stdout c
              ++ [header; ask_title;
                  Printed "Error: Title cannot be empty or contain only whitespace."])))
  /\ (forall title_input,
        stdin c = [title_input] -> all_space title_input = false ->
        TodoCLI.add_task exn_text c
        = (EOFError,
           mkConsole (service_state c) []
             (stdout c ++ [header; ask_title; ask_description]))).
Proof.
  intros header ask_title ask_description.
  unfold TodoCLI.add_task, input, print. simpl. split_and!.
  - intros ->. by rewrite <- !app_assoc.
  - intros title_input rest -> Hb. rewrite is_blank_str, all_space_strip, Hb.
    simpl. by rewrite <- !app_assoc.
  - intros title_input -> Hb. rewrite is_blank_str, all_space_strip, Hb.
    simpl. by rewrite <- !app_assoc.
Qed.

(** X20: Given a title that is not blank and a description, the dialogue passes
    both, stripped of surrounding whitespace, to the service.  If the
    stripped title has at most 200 characters and the stripped description
    at most 1000, the task is added with exactly these strings and the
    dialogue prints the id it got, the old counter; otherwise it prints the
    service's message after ["Error: "] and the service keeps its state.
    The branch for unexpected exceptions is never taken. *)
Theorem dialogue_adds_stripped (c : console) title_input description_input rest
  (Hwf : wf (service_state c))
  (Hin : stdin c = title_input :: description_input :: rest)
  (Hb : all_space title_input = false) :
  let title := strip title_input in
  let description := strip description_input in
  let asked :=
    stdout c
    ++ [Printed (newline +:+ "--- Add New Task ---");
        Prompted "Enter task title: ";
        Prompted "Enter task description (optional): "] in
  (len title <= 200 -> len description <= 1000 ->
   TodoCLI.add_task exn_text c
   = (Returns,
      mkConsole (added (service_state c) (VStr title) (VStr description)) rest
        (asked
         ++ [Printed ("Task added successfully! ID: "
                      +:+ pretty (_next_id (self (service_state c))))])))
  /\ (200 < len title ->
      TodoCLI.add_task exn_text c
      = (Returns,
         mkConsole (service_state c) rest
           (asked
            ++ [Printed "Error: Invalid task input: Title must not exceed 200 characters"])))
  /\ (len title <= 200 -> 1000 < len description ->
      TodoCLI.add_task exn_text c
      = (Returns,
         mkConsole (service_state c) rest
           (asked
            ++ [Printed "Error: Invalid task input: Description must not exceed 1000 characters"]))).
Proof.
  intros title description asked. subst title description asked.
  unfold TodoCLI.add_task, input, print. rewrite Hin. simpl.
  rewrite is_blank_str, all_space_strip, Hb. simpl.
  set (st := service_state c) in *.
  assert (forall r, valid_description (VStr (strip description_input)) = r ->
            r = (len (strip description_input) <=? 1000)) as Hdesc.
  { by intros r <-. }
  split_and!.
  - intros Ht Hd.
    rewrite (add_task_ok st) ; [| done | |].
    + simpl. unfold id_at. fold st.
      pose proof (task_at_added st (VStr (strip title_input))
                    (VStr (strip description_input)) (fresh (dom (heap st)))
                    Hwf) as Hat.
      rewrite decide_True in Hat by done. unfold added in Hat. simpl in Hat.
      rewrite Hat. simpl. by rewrite <- !app_assoc.
    + rewrite valid_title_stripped, Hb. simpl. by apply Z.leb_le.
    + simpl. by apply Z.leb_le.
  - intros Ht.
    rewrite (add_task_reports st (strip title_input) _
               "Title must not exceed 200 characters").
    + simpl. by rewrite <- !app_assoc.
    + by rewrite all_space_strip.
    + apply init_reports_first_bad_title; [|by rewrite all_space_strip|done].
      unfold valid_id; simpl. apply Z.ltb_lt, (wf_next st Hwf).
  - intros Ht Hd.
    rewrite (add_task_reports st (strip title_input) _
               "Description must not exceed 1000 characters").
    + simpl. by rewrite <- !app_assoc.
    + by rewrite all_space_strip.
    + apply init_reports_long_description; [| |done].
      * unfold valid_id; simpl. apply Z.ltb_lt, (wf_next st Hwf).
      * rewrite valid_title_stripped, Hb. simpl. by apply Z.leb_le.
Qed.

End DialogueFacts.

Lemma dialogue_without_add_witness :
  all_space "   " = true
  /\ TodoCLI.add_task (fun _ => "") (mkConsole demo ["   "; "later"] [])
     = (Returns,
        mkConsole demo ["later"]
          [Printed (newline +:+ "--- Add New Task ---");
           Prompted "Enter task title: ";
           Printed "Error: Title cannot be empty or contain only whitespace."]).
Proof.
  split; [reflexivity|].
  destruct (dialogue_without_add (fun _ => "")
              (mkConsole demo ["   "; "later"] [])) as (_ & H & _).
  by apply (H "   " ["later"]).
Defined.

Lemma dialogue_adds_stripped_witness :
  wf demo
  /\ all_space "  Walk " = false
  /\ TodoCLI.add_task (fun _ => "")
       (mkConsole demo ["  Walk "; " the dog  "] [])
     = (Returns,
        mkConsole (added demo (VStr "Walk") (VStr "the dog")) []
          [Printed (newline +:+ "--- Add New Task ---");
           Prompted "Enter task title: ";
           Prompted "Enter task description (optional): ";
           Printed "Task added successfully! ID: 4"]).
Proof.
  split; [apply wf_demo|]. split; [reflexivity|].
  destruct (dialogue_adds_stripped (fun _ => "")
              (mkConsole demo ["  Walk "; " the dog  "] [])
              "  Walk " " the dog  " [] wf_demo eq_refl eq_refl) as (H & _).
  apply H; vm_compute; discriminate.
Defined.

(** ** Looking up with an id that is not an integer *)

Lemma lookup_id_same_answers h a b items :
  (forall l, l ∈ items -> py_eq (id_at h l) a = py_eq (id_at h l) b) ->
  lookup_id h a items = lookup_id h b items.
Proof.
  induction items as [|x items IH]; simpl; [done|]. intros H.
  rewrite (H x) by apply list_elem_of_here.
  rewrite IH; [done|]. intros l Hl. apply H. by apply list_elem_of_further.
Qed.

(** X21: Ids are compared with [==]: looking up [True] or [False] answers as
    looking up [1] or [0] does, and looking up [None] or a string finds
    nothing, without raising. *)
Theorem lookup_by_other_types s (Hwf : wf s) :
  (forall b,
     TodoService.get_task_by_id (VBool b) s
     = TodoService.get_task_by_id (VInt (Z.b2z b)) s)
  /\ TodoService.get_task_by_id VNone s = (Ok None, s)
  /\ (forall x, TodoService.get_task_by_id (VStr x) s = (Ok None, s)).
Proof.
  assert (forall l, l ∈ items_of s -> exists i, id_at (heap s) l = VInt i)
    as Hint.
  { intros l Hl. destruct (wf_item s l Hwf Hl) as (t & Ht & _ & i & Hi & _).
    exists i. by rewrite (id_at_task _ _ _ Ht). }
  split_and!.
  - intros b. rewrite !get_task_by_id_spec by done. f_equal. f_equal.
    apply lookup_id_same_answers. intros l Hl.
    destruct (Hint l Hl) as [i ->]. done.
  - rewrite get_task_by_id_spec by done. f_equal. f_equal.
    apply find_None. intros l Hl. destruct (Hint l Hl) as [i ->]. done.
  - intros x. rewrite get_task_by_id_spec by done. f_equal. f_equal.
    apply find_None. intros l Hl. destruct (Hint l Hl) as [i ->]. done.
Qed.

Lemma lookup_by_other_types_witness :
  wf demo
  /\ TodoService.get_task_by_id (VStr "2") demo = (Ok None, demo).
Proof.
  split; [apply wf_demo|].
  destruct (lookup_by_other_types demo wf_demo) as (_ & _ & H).
  apply H.
Defined.

Lemma to_dict_keys_and_injective_witness :
  Task.to_dict (Task.mk (VInt 1) (VStr "a") (VStr "") (VBool false))
  = Task.to_dict (Task.mk (VInt 1) (VStr "a") (VStr "") (VBool false))
  /\ is_Some (Task.to_dict (Task.mk (VInt 1) (VStr "a") (VStr "") (VBool false))
              !! "title").
Proof.
  split; [reflexivity|].
  destruct to_dict_keys_and_injective as [H _].
  apply H. in_items.
Defined.
